(** * xangi: agent process orchestration and streaming protocol layer

    A shallow embedding of the runners ([codex-cli.ts], [claude-code.ts],
    [gemini-cli.ts]), of [base-runner.ts] and of [process-manager.ts],
    with the properties of the specification that concern them.

    Conventions.
    - A JavaScript string is a [string] (a sequence of bytes, UTF-8 for the
      Japanese constants); the operations used by the source ([split],
      [trim], [includes], concatenation) are defined on it below.
    - An optional value ([x?: T], [undefined]) is an [option].
    - A [Promise] is the [option] of its settled value: [None] while it is
      pending, [Some (inl message)] once rejected with [new Error(message)],
      [Some (inr v)] once resolved with [v].  [resolve] and [reject] on a
      settled promise do nothing, as in JavaScript.
    - A child process is driven by the list of events it emits, in the
      order the event loop delivers them; every handler is a function on
      the state of the closure that [execute] or [executeStream] creates.
    - [JSON.parse] is a parameter of the runners ([JSON_parse]); the
      examples instantiate it with the parser [Json.parse] of this file. *)

From Stdlib Require Import ZArith String Ascii List Lia Bool DecimalString.
From stdpp Require Import gmap strings.
Import ListNotations.
Open Scope string_scope.
#[local] Set Warnings "-register-all".
#[local] Arguments String.append : simpl nomatch.

(** ** JavaScript string primitives *)

Module JS.

Definition LF : ascii := "010"%char.
Definition nl : string := String LF EmptyString.

(** Truthiness of a string: every string but the empty one. *)
Definition truthy (s : string) : bool :=
  match s with
  | EmptyString => false
  | String _ _ => true
  end.

(** The white space and line terminators of the ASCII range, which
    [String.prototype.trim] removes (tab, LF, VT, FF, CR, space). *)
Definition is_space (c : ascii) : bool :=
  let n := nat_of_ascii c in
  ((9 <=? n)%nat && (n <=? 13)%nat) || (n =? 32)%nat.

Fixpoint trimStart (s : string) : string :=
  match s with
  | EmptyString => EmptyString
  | String c s' => if is_space c then trimStart s' else s
  end.

Fixpoint trimEnd (s : string) : string :=
  match s with
  | EmptyString => EmptyString
  | String c s' =>
      match trimEnd s' with
      | EmptyString => if is_space c then EmptyString else String c EmptyString
      | t => String c t
      end
  end.

(** [s.trim()] *)
Definition trim (s : string) : string := trimEnd (trimStart s).

(** [s.split('\n')]: never empty; the last element is what follows the
    last line feed. *)
Fixpoint split (s : string) : list string :=
  match s with
  | EmptyString => [EmptyString]
  | String c s' =>
      if Ascii.eqb c LF then EmptyString :: split s'
      else match split s' with
           | [] => [String c EmptyString]
           | l :: ls => String c l :: ls
           end
  end.

(** [lines.pop()]: the array without its last element, and that element
    ([undefined] on an empty array). *)
Definition pop (lines : list string) : list string * option string :=
  (removelast lines, List.last (map Some lines) None).

(** [s.startsWith(p)] *)
Definition startsWith (s p : string) : bool := String.prefix p s.

(** [s.includes(needle)] *)
Fixpoint includes (s needle : string) : bool :=
  String.prefix needle s ||
  match s with
  | EmptyString => false
  | String _ s' => includes s' needle
  end.

(** A number in a template literal: an exit code is a non-negative
    integer, or [null] when the process was ended by a signal. *)
Definition show_Z (n : Z) : string := NilZero.string_of_int (Z.to_int n).

Definition show_code (code : option Z) : string :=
  match code with
  | Some n => show_Z n
  | None => "null"
  end.

End JS.

(** ** JSON values *)

Module Json.

Inductive json : Type :=
| JNull
| JBool (b : bool)
| JNum (n : Z)
| JStr (s : string)
| JArr (l : list json)
| JObj (l : list (string * json)).

(** Property read [j.k] on a value that is not [null]: the last binding
    of [k] in an object ([JSON.parse] keeps the last duplicate),
    [undefined] otherwise. *)
Fixpoint assoc (k : string) (l : list (string * json)) : option json :=
  match l with
  | [] => None
  | (k', v) :: l' =>
      match assoc k l' with
      | Some w => Some w
      | None => if String.eqb k k' then Some v else None
      end
  end.

Definition field (j : json) (k : string) : option json :=
  match j with
  | JObj l => assoc k l
  | _ => None
  end.

(** Truthiness of a property that was read ([if (j.k)]). *)
Definition truthy (v : option json) : bool :=
  match v with
  | None | Some JNull => false
  | Some (JBool b) => b
  | Some (JNum n) => negb (n =? 0)%Z
  | Some (JStr s) => JS.truthy s
  | Some (JArr _) | Some (JObj _) => true
  end.

(** A property read at the type the interfaces of the source declare for
    it, [string]: the interfaces [CodexEvent], [ClaudeCodeResponse] and
    [GeminiJsonResponse] give every text and identifier field that type.
    A value of another JSON type is outside the declared input and is
    read as absent. *)
Definition str_field (j : json) (k : string) : option string :=
  match field j k with
  | Some (JStr s) => Some s
  | _ => None
  end.

(** [j.k] used as a condition and then as a string: [Some s] when the
    property is a non-empty string. *)
Definition text_field (j : json) (k : string) : option string :=
  match str_field j k with
  | Some s => if JS.truthy s then Some s else None
  | None => None
  end.

(** [j.k === lit] *)
Definition field_is (j : json) (k lit : string) : bool :=
  match field j k with
  | Some (JStr s) => String.eqb s lit
  | _ => false
  end.

(** *** A parser for the examples

    A recursive-descent parser for JSON texts whose numbers are integer
    literals and whose strings use the two-character escapes only
    (no [\u]); on those texts it returns what [JSON.parse] returns. *)

Definition dquote : ascii := "034"%char.
Definition backslash : ascii := "092"%char.

Definition is_ws (c : ascii) : bool :=
  let n := nat_of_ascii c in
  (n =? 32)%nat || (n =? 9)%nat || (n =? 10)%nat || (n =? 13)%nat.

Fixpoint skip_ws (s : string) : string :=
  match s with
  | EmptyString => EmptyString
  | String c s' => if is_ws c then skip_ws s' else s
  end.

Definition digit (c : ascii) : option Z :=
  let n := nat_of_ascii c in
  if ((48 <=? n)%nat && (n <=? 57)%nat) then Some (Z.of_nat (n - 48)) else None.

Fixpoint digits (acc : Z) (s : string) : Z * string :=
  match s with
  | EmptyString => (acc, s)
  | String c s' =>
      match digit c with
      | Some d => digits (10 * acc + d)%Z s'
      | None => (acc, s)
      end
  end.

(** An unsigned integer literal: no leading zero, and neither a fraction
    nor an exponent after it. *)
Definition unsigned (s : string) : option (Z * string) :=
  match s with
  | EmptyString => None
  | String c s' =>
      match digit c with
      | None => None
      | Some d =>
          let '(n, r) := if (d =? 0)%Z then (0%Z, s') else digits d s' in
          match r with
          | String c' _ =>
              match digit c' with
              | Some _ => None
              | None =>
                  if Ascii.eqb c' "."%char || Ascii.eqb c' "e"%char || Ascii.eqb c' "E"%char
                  then None else Some (n, r)
              end
          | EmptyString => Some (n, r)
          end
      end
  end.

Definition unescape (c : ascii) : option ascii :=
  if Ascii.eqb c dquote then Some dquote
  else if Ascii.eqb c backslash then Some backslash
  else if Ascii.eqb c "/"%char then Some "/"%char
  else if Ascii.eqb c "n"%char then Some "010"%char
  else if Ascii.eqb c "t"%char then Some "009"%char
  else if Ascii.eqb c "r"%char then Some "013"%char
  else if Ascii.eqb c "b"%char then Some "008"%char
  else if Ascii.eqb c "f"%char then Some "012"%char
  else None.

(** The characters of a string literal, after its opening quote. *)
Fixpoint chars (s : string) : option (string * string) :=
  match s with
  | EmptyString => None
  | String c s' =>
      if Ascii.eqb c dquote then Some (EmptyString, s')
      else if Ascii.eqb c backslash then
        match s' with
        | EmptyString => None
        | String e s'' =>
            match unescape e, chars s'' with
            | Some x, Some (t, r) => Some (String x t, r)
            | _, _ => None
            end
        end
      else if (nat_of_ascii c <? 32)%nat then None
      else
        match chars s' with
        | Some (t, r) => Some (String c t, r)
        | None => None
        end
  end.

Fixpoint strip (p s : string) : option string :=
  match p, s with
  | EmptyString, _ => Some s
  | String a p', String b s' => if Ascii.eqb a b then strip p' s' else None
  | String _ _, EmptyString => None
  end.

Fixpoint value (fuel : nat) (s : string) : option (json * string) :=
  match fuel with
  | O => None
  | S fuel =>
      match skip_ws s with
      | EmptyString => None
      | String c r as t =>
          if Ascii.eqb c "{"%char then
            match skip_ws r with
            | String "}"%char r' => Some (JObj [], r')
            | _ =>
                match members fuel r with
                | Some (l, r') => Some (JObj l, r')
                | None => None
                end
            end
          else if Ascii.eqb c "["%char then
            match skip_ws r with
            | String "]"%char r' => Some (JArr [], r')
            | _ =>
                match elements fuel r with
                | Some (l, r') => Some (JArr l, r')
                | None => None
                end
            end
          else if Ascii.eqb c dquote then
            match chars r with
            | Some (x, r') => Some (JStr x, r')
            | None => None
            end
          else if Ascii.eqb c "-"%char then
            match unsigned r with
            | Some (n, r') => Some (JNum (- n), r')
            | None => None
            end
          else
            match strip "true" t, strip "false" t, strip "null" t with
            | Some r', _, _ => Some (JBool true, r')
            | _, Some r', _ => Some (JBool false, r')
            | _, _, Some r' => Some (JNull, r')
            | _, _, _ =>
                match unsigned t with
                | Some (n, r') => Some (JNum n, r')
                | None => None
                end
            end
      end
  end
with members (fuel : nat) (s : string) : option (list (string * json) * string) :=
  match fuel with
  | O => None
  | S fuel =>
      match skip_ws s with
      | String c r =>
          if Ascii.eqb c dquote then
            match chars r with
            | Some (k, r1) =>
                match skip_ws r1 with
                | String ":"%char r2 =>
                    match value fuel r2 with
                    | Some (v, r3) =>
                        match skip_ws r3 with
                        | String ","%char r4 =>
                            match members fuel r4 with
                            | Some (l, r5) => Some ((k, v) :: l, r5)
                            | None => None
                            end
                        | String "}"%char r4 => Some ([(k, v)], r4)
                        | _ => None
                        end
                    | None => None
                    end
                | _ => None
                end
            | None => None
            end
          else None
      | EmptyString => None
      end
  end
with elements (fuel : nat) (s : string) : option (list json * string) :=
  match fuel with
  | O => None
  | S fuel =>
      match value fuel s with
      | Some (v, r1) =>
          match skip_ws r1 with
          | String ","%char r2 =>
              match elements fuel r2 with
              | Some (l, r3) => Some (v :: l, r3)
              | None => None
              end
          | String "]"%char r2 => Some ([v], r2)
          | _ => None
          end
      | None => None
      end
  end.

(** [JSON.parse(s)]: [None] stands for the [SyntaxError]. *)
Definition parse (s : string) : option json :=
  match value (2 * String.length s + 2) s with
  | Some (j, r) =>
      match skip_ws r with
      | EmptyString => Some j
      | String _ _ => None
      end
  | None => None
  end.

(** JSON texts are written in the examples with an apostrophe for the
    double quote: [q "{'a':1}"] is the text [{"a":1}]. *)
Fixpoint q (s : string) : string :=
  match s with
  | EmptyString => EmptyString
  | String c s' => String (if Ascii.eqb c "'"%char then dquote else c) (q s')
  end.

End Json.

Import Json.

(** ** process-manager.ts *)

Module ProcessManager.

Inductive signal : Type := SIGTERM | SIGKILL.

(** What the manager and the runners read and write of a [ChildProcess]
    object.  [killed] is Node's [subprocess.killed]: a signal was sent to
    the process through [kill()].  [exited] says that the operating-system
    process has ended; [kill()] then has no process to signal.
    [received] lists the signals delivered, oldest first. *)
Record ChildProcess : Type := mkProc {
  killed : bool;
  exited : bool;
  received : list signal
}.

(** A process object is known by its identity: the table [processes]
    holds references, and the runner that spawned a process keeps another
    reference to the same object. *)
Abbreviation handle := nat (only parsing).

Record t : Type := mk {
  heap : gmap handle ChildProcess;
  processes : gmap string handle;
  (** the ['close'] listeners that [register] installed, oldest first *)
  listeners : list (handle * string)
}.

(** [proc.killed] *)
Definition is_killed (s : t) (proc : handle) : bool :=
  match heap s !! proc with
  | Some c => killed c
  | None => false
  end.

(** [proc.kill(sig)]: delivers the signal and sets [killed] when the
    process has not ended, and returns whether it did. *)
Definition kill (proc : handle) (sig : signal) (s : t) : bool * t :=
  match heap s !! proc with
  | Some c =>
      if exited c then (false, s)
      else (true,
            mk (<[proc := mkProc true (exited c) (received c ++ [sig])]> (heap s))
               (processes s) (listeners s))
  | None => (false, s)
  end.

Definition stop (channelId : string) (s : t) : bool * t :=
  match processes s !! channelId with
  | Some proc =>
      if is_killed s proc then (false, s)
      else
        let s1 := snd (kill proc SIGTERM s) in
        (true, mk (heap s1) (delete channelId (processes s1)) (listeners s1))
  | None => (false, s)
  end.

Definition register (channelId : string) (proc : handle) (s : t) : t :=
  let s1 := snd (stop channelId s) in
  mk (heap s1) (<[channelId := proc]> (processes s1)) (listeners s1 ++ [(proc, channelId)]).

Definition isRunning (channelId : string) (s : t) : bool :=
  match processes s !! channelId with
  | Some proc => negb (is_killed s proc)
  | None => false
  end.

(** [stopAll()]: the loop visits the channels in the order the [Map]
    iterates them, the order of their insertion, which the table of this
    model does not record: [order] is that order.  ([stop] removes no
    entry but the one of the channel it is given, so that the loop visits
    every channel of the table once.) *)
Definition stopAll (order : list string) (s : t) : t :=
  fold_left (fun acc channelId => snd (stop channelId acc)) order s.

(** The listener that [register channelId proc] installed. *)
Definition on_close (channelId : string) (proc : handle) (s : t) : t :=
  match processes s !! channelId with
  | Some p =>
      if Nat.eqb p proc
      then mk (heap s) (delete channelId (processes s)) (listeners s)
      else s
  | None => s
  end.

(** The process [proc] ends and emits ['close']: its listeners run in the
    order they were installed. *)
Definition emit_close (proc : handle) (s : t) : t :=
  let ended :=
    match heap s !! proc with
    | Some c => mk (<[proc := mkProc (killed c) true (received c)]> (heap s))
                   (processes s) (listeners s)
    | None => s
    end in
  fold_left
    (fun acc l => if Nat.eqb (fst l) proc then on_close (snd l) proc acc else acc)
    (listeners s) ended.

(** The signals a process has received. *)
Definition signals (s : t) (proc : handle) : list signal :=
  match heap s !! proc with
  | Some c => received c
  | None => []
  end.

End ProcessManager.

(** ** agent-runner.ts and base-runner.ts *)

Record RunOptions : Type := mkRunOptions {
  opt_skipPermissions : option bool;
  opt_sessionId : option string;
  opt_channelId : option string
}.

Record RunResult : Type := mkRunResult {
  result : string;
  sessionId : string
}.

(** [BaseRunnerOptions], [CodexOptions], [ClaudeCodeOptions] *)
Record BaseRunnerOptions : Type := mkOptions {
  o_model : option string;
  o_timeoutMs : option Z;
  o_workdir : option string;
  o_skipPermissions : option bool
}.

(** The private fields of a runner object. *)
Record Runner : Type := mkRunner {
  model : option string;
  timeoutMs : Z;
  workdir : option string;
  skipPermissions : bool;
  systemPrompt : string
}.

(** What the runners take from outside this repository or from the part of
    it that is not in the sources at hand: [JSON.parse], and the helper
    [mergeTexts] that [claude-code.ts] imports from [agent-runner.js]. *)
Class Platform : Type := mkPlatform {
  JSON_parse : string -> option json;
  mergeTexts : string -> string -> string
}.

(** Modelled from the spec: [mergeTexts] is imported by [claude-code.ts]
    from [agent-runner.js], and the [agent-runner.ts] at hand does not
    define it.  The specification gives its additive-merge rule: if the
    accumulated text is empty, adopt the result text outright; if the
    accumulated text is non-empty and the result text does not already
    contain it as a prefix, concatenate (accumulated text stays, result
    text appended).  When the result text already starts with the
    accumulated text the accumulated text is not repeated. *)
Definition mergeTexts_spec (accumulated resultText : string) : string :=
  if negb (JS.truthy accumulated) then resultText
  else if JS.startsWith resultText accumulated then resultText
  else accumulated ++ resultText.

(** [x ?? y] *)
Definition nullish {A : Type} (x : option A) (y : A) : A :=
  match x with
  | Some v => v
  | None => y
  end.

(** [if (x)] on an optional string: defined and not empty. *)
Definition given (x : option string) : option string :=
  match x with
  | Some s => if JS.truthy s then Some s else None
  | None => None
  end.

(** [options?.f] *)
Definition opt {A : Type} (f : RunOptions -> option A) (options : option RunOptions) : option A :=
  match options with
  | Some o => f o
  | None => None
  end.

Definition DEFAULT_TIMEOUT_MS : Z := 300000.

Definition CHAT_SYSTEM_PROMPT_RESUME : string :=
"あなたはチャットプラットフォーム（Discord/Slack）経由で会話しています。

## セッション継続
このセッションは --resume オプションで継続されています。過去の会話履歴は保持されているので、直前の会話内容を覚えています。「再起動したから覚えていない」とは言わないでください。

## セッション開始時
AGENTS.md を読み、指示に従うこと（AGENTS.md 等の参照含む）。
xangi専用コマンド（Discord操作・ファイル送信・スケジューラー・チャンネル一覧・タイムアウト対策）は以下を参照。".

(** [loadXangiCommands()]: [file] is the content of
    [prompts/XANGI_COMMANDS.md], [None] when the file does not exist or
    cannot be read. *)
Definition loadXangiCommands (file : option string) : string :=
  match file with
  | None => ""
  | Some content => JS.nl ++ JS.nl ++ "## XANGI_COMMANDS.md" ++ JS.nl ++ JS.nl ++ content
  end.

Definition buildSystemPrompt (file : option string) : string :=
  CHAT_SYSTEM_PROMPT_RESUME ++ loadXangiCommands file.

(** The constructor of [CodexRunner] and of [ClaudeCodeRunner]. *)
Definition new_runner (file : option string) (options : option BaseRunnerOptions) : Runner :=
  mkRunner
    (match options with Some o => o_model o | None => None end)
    (nullish (match options with Some o => o_timeoutMs o | None => None end) DEFAULT_TIMEOUT_MS)
    (match options with Some o => o_workdir o | None => None end)
    (nullish (match options with Some o => o_skipPermissions o | None => None end) false)
    (buildSystemPrompt file).

(** The constructor of [GeminiRunner], which builds no system prompt. *)
Definition new_gemini (options : option BaseRunnerOptions) : Runner :=
  mkRunner
    (match options with Some o => o_model o | None => None end)
    (nullish (match options with Some o => o_timeoutMs o | None => None end) DEFAULT_TIMEOUT_MS)
    (match options with Some o => o_workdir o | None => None end)
    (nullish (match options with Some o => o_skipPermissions o | None => None end) false)
    "".

(** ** Child processes and promises *)

Module Proc.

(** What a spawned process makes the event loop deliver to the handlers
    that [execute] and [executeStream] install: data on its standard
    streams, the expiry of the timer set at spawn, its ['close'] event with
    the exit code ([None] for [null], a process ended by a signal), and
    its ['error'] event with the message of the error. *)
Inductive event : Type :=
| Stdout (data : string)
| Stderr (data : string)
| Timeout
| Close (code : option Z)
| Error (message : string).

(** [resolve(v)] and [reject(new Error(m))]: the first one settles. *)
Definition settle {A : Type} (p : option A) (v : A) : option A :=
  match p with
  | None => Some v
  | Some _ => p
  end.

(** [code !== 0] *)
Definition nonzero (code : option Z) : bool :=
  match code with
  | Some n => negb (n =? 0)%Z
  | None => true
  end.

(** The calls made on the [StreamCallbacks], oldest first. *)
Inductive call : Type :=
| onText (text fullText : string)
| onComplete (r : RunResult)
| onError (message : string).

Definition terminal (c : call) : bool :=
  match c with
  | onText _ _ => false
  | onComplete _ | onError _ => true
  end.

(** The processes a run spawns: the events of the [n]-th one (from 0),
    given the argument list it was spawned with. *)
Definition World : Type := nat -> list string -> list event.

(** A run: the argument lists of the processes it spawned, oldest first,
    and the promise it returns. *)
Record Run : Type := mkRun {
  spawned : list (list string);
  outcome : option (string + RunResult)
}.

(** The state of the closure of a non-streaming [execute]. *)
Record exec : Type := mkExec {
  e_stdout : string;
  e_stderr : string;
  e_sessionId : string;
  e_timer : bool;
  e_kills : nat;
  e_promise : option (string + (string * string))
}.

Definition exec_init : exec := mkExec "" "" "" true 0 None.

(** The state of the closure of [executeStream].  [decoded] is a ghost
    field: the values [JSON.parse] returned, oldest first. *)
Record stream : Type := mkStream {
  fullText : string;
  s_sessionId : string;
  buffer : string;
  timer : bool;
  kills : nat;
  calls : list call;
  promise : option (string + RunResult);
  decoded : list json
}.

Definition stream_init : stream := mkStream "" "" "" true 0 [] None [].

End Proc.

Import Proc.

(** [args.push(a, b, ...)] *)
Definition push (args items : list string) : list string := (args ++ items)%list.

(** A property read on [null] throws a [TypeError]; inside the [try]
    blocks of the runners the [catch] swallows it, as it swallows the
    [SyntaxError] of [JSON.parse]. *)
Definition is_null (j : json) : bool :=
  match j with
  | JNull => true
  | _ => false
  end.

(** A field that an interface declares as a required string
    ([result], [session_id], [response]). *)
Definition required (j : json) (k : string) : string :=
  nullish (str_field j k) "".

Definition set_fullText (s : stream) (x : string) : stream :=
  mkStream x (s_sessionId s) (buffer s) (timer s) (kills s) (calls s) (promise s) (decoded s).

Definition set_sessionId (s : stream) (x : string) : stream :=
  mkStream (fullText s) x (buffer s) (timer s) (kills s) (calls s) (promise s) (decoded s).

Definition set_buffer (s : stream) (x : string) : stream :=
  mkStream (fullText s) (s_sessionId s) x (timer s) (kills s) (calls s) (promise s) (decoded s).

(** [clearTimeout(timeout)] *)
Definition clear_timer (s : stream) : stream :=
  mkStream (fullText s) (s_sessionId s) (buffer s) false (kills s) (calls s) (promise s) (decoded s).

(** [proc.kill()] *)
Definition kill_proc (s : stream) : stream :=
  mkStream (fullText s) (s_sessionId s) (buffer s) (timer s) (S (kills s)) (calls s) (promise s) (decoded s).

(** [callbacks.f?.(...)] with the callback supplied *)
Definition call_back (s : stream) (c : call) : stream :=
  mkStream (fullText s) (s_sessionId s) (buffer s) (timer s) (kills s) (calls s ++ [c])%list
           (promise s) (decoded s).

Definition resolve (s : stream) (r : RunResult) : stream :=
  mkStream (fullText s) (s_sessionId s) (buffer s) (timer s) (kills s) (calls s)
           (settle (promise s) (inr r)) (decoded s).

Definition reject (s : stream) (message : string) : stream :=
  mkStream (fullText s) (s_sessionId s) (buffer s) (timer s) (kills s) (calls s)
           (settle (promise s) (inl message)) (decoded s).

Definition log_decoded (s : stream) (j : json) : stream :=
  mkStream (fullText s) (s_sessionId s) (buffer s) (timer s) (kills s) (calls s) (promise s)
           (decoded s ++ [j])%list.

(** [buffer += data; lines = buffer.split('\n'); buffer = lines.pop() || '']:
    the complete lines, and the state with the fragment kept. *)
Definition take_lines (s : stream) (data : string) : list string * stream :=
  let '(lines, last) := JS.pop (JS.split (buffer s ++ data)) in
  (lines, set_buffer s (nullish (given last) "")).

(** ** codex-cli.ts *)

Module Codex.

Section Runner.
Context `{Platform}.

Definition buildArgs (this : Runner) (prompt : string) (options : option RunOptions)
  : list string :=
  let args := ["exec"; "--json"] in
  let skip := nullish (opt opt_skipPermissions options) (skipPermissions this) in
  let args :=
    if skip then push args ["--dangerously-bypass-approvals-and-sandbox"]
    else push args ["--full-auto"] in
  let args := push args ["--skip-git-repo-check"] in
  let args :=
    match given (model this) with
    | Some m => push args ["--model"; m]
    | None => args
    end in
  let args :=
    match given (workdir this) with
    | Some w => push args ["--cd"; w]
    | None => args
    end in
  let args :=
    match given (opt opt_sessionId options) with
    | Some sid => push args ["resume"; sid]
    | None => args
    end in
  let fullPrompt :=
    if JS.truthy (systemPrompt this)
    then "<system-context>" ++ JS.nl ++ systemPrompt this ++ JS.nl
         ++ "</system-context>" ++ JS.nl ++ JS.nl ++ prompt
    else prompt in
  push args [fullPrompt].

Definition extractSessionId (json : json) : option string :=
  match (if field_is json "type" "thread.started" then text_field json "thread_id" else None) with
  | Some id => Some id
  | None =>
      match text_field json "thread_id" with
      | Some id => Some id
      | None => text_field json "session_id"
      end
  end.

(** [json.item?.f] *)
Definition item_field (json : json) (f : string) : option Json.json :=
  match field json "item" with
  | Some i => field i f
  | None => None
  end.

Definition extractText (json : json) : option (string * bool) :=
  match
    (if field_is json "type" "item.completed" then
       match item_field json "type", item_field json "text" with
       | Some (JStr "agent_message"), Some (JStr text) =>
           if JS.truthy text then Some (text, true) else None
       | _, _ => None
       end
     else None)
  with
  | Some r => Some r
  | None =>
      match (if field_is json "type" "message" then text_field json "content" else None) with
      | Some content => Some (content, true)
      | None =>
          match text_field json "result" with
          | Some r => Some (r, true)
          | None => None
          end
      end
  end.

(** The body of the loop of [extractResult] on one line. *)
Definition collect (messageParts : list string) (line : string) : list string :=
  if negb (JS.truthy (JS.trim line)) then messageParts
  else
    match JSON_parse line with
    | Some json =>
        if is_null json then messageParts
        else
          match extractText json with
          | Some (text, true) => push messageParts [text]
          | _ => messageParts
          end
    | None => messageParts
    end.

Definition messageParts (output : string) : list string :=
  fold_left collect (JS.split (JS.trim output)) [].

Definition extractResult (output : string) : string :=
  match messageParts output with
  | [] => output
  | p :: ps => List.last ps p
  end.

(** *** [execute] *)

Definition exec_line (sessionId : string) (line : string) : string :=
  if negb (JS.truthy (JS.trim line)) then sessionId
  else
    match JSON_parse line with
    | Some json =>
        if is_null json then sessionId
        else nullish (extractSessionId json) sessionId
    | None => sessionId
    end.

Definition exec_step (this : Runner) (e : exec) (ev : event) : exec :=
  match ev with
  | Stdout chunk =>
      mkExec (e_stdout e ++ chunk) (e_stderr e)
             (fold_left exec_line (JS.split chunk) (e_sessionId e))
             (e_timer e) (e_kills e) (e_promise e)
  | Stderr data =>
      mkExec (e_stdout e) (e_stderr e ++ data) (e_sessionId e) (e_timer e) (e_kills e)
             (e_promise e)
  | Timeout =>
      if e_timer e then
        mkExec (e_stdout e) (e_stderr e) (e_sessionId e) false (S (e_kills e))
               (settle (e_promise e)
                  (inl ("Codex CLI timed out after " ++ JS.show_Z (timeoutMs this) ++ "ms")))
      else e
  | Close code =>
      mkExec (e_stdout e) (e_stderr e) (e_sessionId e) false (e_kills e)
             (settle (e_promise e)
                (if nonzero code
                 then inl ("Codex CLI exited with code " ++ JS.show_code code ++ ": "
                           ++ e_stderr e)
                 else inr (e_stdout e, e_sessionId e)))
  | Error message =>
      mkExec (e_stdout e) (e_stderr e) (e_sessionId e) false (e_kills e)
             (settle (e_promise e) (inl ("Failed to spawn Codex CLI: " ++ message)))
  end.

Definition execute (this : Runner) (events : list event) : exec :=
  fold_left (exec_step this) events exec_init.

Definition run (world : World) (this : Runner) (prompt : string)
  (options : option RunOptions) : Run :=
  let args := buildArgs this prompt options in
  mkRun [args]
    (match e_promise (execute this (world 0%nat args)) with
     | None => None
     | Some (inl message) => Some (inl message)
     | Some (inr (stdout, sessionId)) => Some (inr (mkRunResult (extractResult stdout) sessionId))
     end).

(** *** [executeStream] *)

(** What both the ['data'] handler and the flush at ['close'] do with a
    parsed value: the session identifier, then the text. *)
Definition interpret (s : stream) (json : json) : stream * option string :=
  let s :=
    match extractSessionId json with
    | Some sid => set_sessionId s sid
    | None => s
    end in
  match extractText json with
  | Some (text, _) => (set_fullText s text, Some text)
  | None => (s, None)
  end.

Definition on_line (s : stream) (line : string) : stream :=
  if negb (JS.truthy (JS.trim line)) then s
  else
    match JSON_parse line with
    | Some json =>
        let s := log_decoded s json in
        if is_null json then s
        else
          match interpret s json with
          | (s, Some text) => call_back s (onText text (fullText s))
          | (s, None) => s
          end
    | None => s
    end.

Definition on_data (s : stream) (data : string) : stream :=
  let '(lines, s) := take_lines s data in
  fold_left on_line lines s.

Definition flush (s : stream) : stream :=
  if JS.truthy (JS.trim (buffer s)) then
    match JSON_parse (buffer s) with
    | Some json =>
        let s := log_decoded s json in
        if is_null json then s else fst (interpret s json)
    | None => s
    end
  else s.

Definition on_close (s : stream) (code : option Z) : stream :=
  let s := flush (clear_timer s) in
  if nonzero code then
    let message := "Codex CLI exited with code " ++ JS.show_code code in
    reject (call_back s (onError message)) message
  else
    let r := mkRunResult (fullText s) (s_sessionId s) in
    resolve (call_back s (onComplete r)) r.

Definition on_timeout (this : Runner) (s : stream) : stream :=
  let message := "Codex CLI timed out after " ++ JS.show_Z (timeoutMs this) ++ "ms" in
  reject (call_back (kill_proc s) (onError message)) message.

Definition on_error (s : stream) (m : string) : stream :=
  let message := "Failed to spawn Codex CLI: " ++ m in
  reject (call_back (clear_timer s) (onError message)) message.

Definition stream_step (this : Runner) (s : stream) (ev : event) : stream :=
  match ev with
  | Stdout data => on_data s data
  | Stderr _ => s
  | Timeout =>
      if timer s
      then on_timeout this
             (mkStream (fullText s) (s_sessionId s) (buffer s) false (kills s) (calls s)
                       (promise s) (decoded s))
      else s
  | Close code => on_close s code
  | Error m => on_error s m
  end.

Definition executeStream (this : Runner) (events : list event) : stream :=
  fold_left (stream_step this) events stream_init.

End Runner.

End Codex.

(** ** claude-code.ts *)

Module Claude.

Section Runner.
Context `{Platform}.

(** The argument list that [run] builds. *)
Definition run_args (this : Runner) (prompt : string) (options : option RunOptions)
  : list string :=
  let args := ["-p"; "--output-format"; "json"] in
  let skip := nullish (opt opt_skipPermissions options) (skipPermissions this) in
  let args := if skip then push args ["--dangerously-skip-permissions"] else args in
  let args :=
    match given (opt opt_sessionId options) with
    | Some sid => push args ["--resume"; sid]
    | None => args
    end in
  let args :=
    match given (model this) with
    | Some m => push args ["--model"; m]
    | None => args
    end in
  let args := push args ["--append-system-prompt"; systemPrompt this] in
  push args [prompt].

(** The argument list that [runStream] builds. *)
Definition runStream_args (this : Runner) (prompt : string) (options : option RunOptions)
  : list string :=
  let args := ["-p"; "--output-format"; "stream-json"; "--verbose"] in
  let skip := nullish (opt opt_skipPermissions options) (skipPermissions this) in
  let args := if skip then push args ["--dangerously-skip-permissions"] else args in
  let args :=
    match given (opt opt_sessionId options) with
    | Some sid => push args ["--resume"; sid]
    | None => args
    end in
  let args :=
    match given (model this) with
    | Some m => push args ["--model"; m]
    | None => args
    end in
  let args := push args ["--append-system-prompt"; systemPrompt this] in
  push args [prompt].

Definition exec_step (this : Runner) (e : exec) (ev : event) : exec :=
  match ev with
  | Stdout data =>
      mkExec (e_stdout e ++ data) (e_stderr e) (e_sessionId e) (e_timer e) (e_kills e)
             (e_promise e)
  | Stderr data =>
      mkExec (e_stdout e) (e_stderr e ++ data) (e_sessionId e) (e_timer e) (e_kills e)
             (e_promise e)
  | Timeout =>
      if e_timer e then
        mkExec (e_stdout e) (e_stderr e) (e_sessionId e) false (S (e_kills e))
               (settle (e_promise e)
                  (inl ("Claude Code CLI timed out after " ++ JS.show_Z (timeoutMs this)
                        ++ "ms")))
      else e
  | Close code =>
      mkExec (e_stdout e) (e_stderr e) (e_sessionId e) false (e_kills e)
             (settle (e_promise e)
                (if nonzero code
                 then inl ("Claude Code CLI exited with code " ++ JS.show_code code ++ ": "
                           ++ e_stderr e)
                 else inr (e_stdout e, "")))
  | Error message =>
      mkExec (e_stdout e) (e_stderr e) (e_sessionId e) false (e_kills e)
             (settle (e_promise e) (inl ("Failed to spawn Claude Code CLI: " ++ message)))
  end.

(** [execute]: the promise resolves with the standard output. *)
Definition execute (this : Runner) (events : list event) : exec :=
  fold_left (exec_step this) events exec_init.

(** [parseResponse]: the error thrown, or the response. *)
Definition parseResponse (output : string) : string + json :=
  match JSON_parse (JS.trim output) with
  | None => inl ("Failed to parse Claude Code CLI response: " ++ output)
  | Some response =>
      if is_null response then inl "Cannot read properties of null (reading 'is_error')"
      else if Json.truthy (field response "is_error")
      then inl ("Claude Code CLI returned error: " ++ required response "result")
      else inr response
  end.

Definition run (world : World) (this : Runner) (prompt : string)
  (options : option RunOptions) : Run :=
  let args := run_args this prompt options in
  mkRun [args]
    (match e_promise (execute this (world 0%nat args)) with
     | None => None
     | Some (inl message) => Some (inl message)
     | Some (inr (stdout, _)) =>
         match parseResponse stdout with
         | inl message => Some (inl message)
         | inr response =>
             Some (inr (mkRunResult (required response "result")
                                    (required response "session_id")))
         end
     end).

(** *** [executeStream] *)

(** [for (const block of json.message.content)]: a block that is [null]
    throws, which ends the loop with the text appended so far.
    [streaming] tells the ['data'] handler, which calls [onText], from the
    flush at ['close'], which does not. *)
Fixpoint blocks (streaming : bool) (s : stream) (content : list json) : stream :=
  match content with
  | [] => s
  | block :: rest =>
      if is_null block then s
      else if field_is block "type" "text" then
        match str_field block "text" with
        | Some text =>
            let s := set_fullText s (fullText s ++ text) in
            blocks streaming
              (if streaming then call_back s (onText text (fullText s)) else s) rest
        | None => blocks streaming s rest
        end
      else blocks streaming s rest
  end.

(** [json.message?.content] *)
Definition message_content (json : json) : option Json.json :=
  match field json "message" with
  | Some m => field m "content"
  | None => None
  end.

(** [json.type === 'assistant' && json.message?.content] *)
Definition is_assistant (json : json) : bool :=
  field_is json "type" "assistant" && Json.truthy (message_content json).

Definition assistant (streaming : bool) (s : stream) (json : json) : stream :=
  match message_content json with
  | Some (JArr content) => blocks streaming s content
  | _ => s
  end.

(** [if (json.result) fullText = mergeTexts(fullText, json.result)] *)
Definition merge_result (s : stream) (json : json) : stream :=
  match text_field json "result" with
  | Some r => set_fullText s (mergeTexts (fullText s) r)
  | None => s
  end.

(** One line in the ['data'] handler: the state, and whether the handler
    returned (the [return] after [reject] in the [is_error] branch). *)
Definition on_line (s : stream) (line : string) : stream * bool :=
  if negb (JS.truthy (JS.trim line)) then (s, false)
  else
    match JSON_parse line with
    | Some json =>
        let s := log_decoded s json in
        if is_null json then (s, false)
        else if is_assistant json then (assistant true s json, false)
        else if field_is json "type" "result" then
          let s := set_sessionId s (required json "session_id") in
          if Json.truthy (field json "is_error") then
            let message := required json "result" in
            (reject (call_back s (onError message)) message, true)
          else (merge_result s json, false)
        else (s, false)
    | None => (s, false)
    end.

Fixpoint on_lines (s : stream) (lines : list string) : stream :=
  match lines with
  | [] => s
  | line :: rest =>
      let '(s, returned) := on_line s line in
      if returned then s else on_lines s rest
  end.

Definition on_data (s : stream) (data : string) : stream :=
  let '(lines, s) := take_lines s data in
  on_lines s lines.

Definition flush (s : stream) : stream :=
  if JS.truthy (JS.trim (buffer s)) then
    match JSON_parse (buffer s) with
    | Some json =>
        let s := log_decoded s json in
        if is_null json then s
        else if is_assistant json then assistant false s json
        else if field_is json "type" "result" then
          merge_result (set_sessionId s (required json "session_id")) json
        else s
    | None => s
    end
  else s.

Definition on_close (s : stream) (code : option Z) : stream :=
  let s := flush (clear_timer s) in
  if nonzero code then
    let message := "Claude Code CLI exited with code " ++ JS.show_code code in
    reject (call_back s (onError message)) message
  else
    let r := mkRunResult (fullText s) (s_sessionId s) in
    resolve (call_back s (onComplete r)) r.

Definition on_timeout (this : Runner) (s : stream) : stream :=
  let message := "Claude Code CLI timed out after " ++ JS.show_Z (timeoutMs this) ++ "ms" in
  reject (call_back (kill_proc s) (onError message)) message.

Definition on_error (s : stream) (m : string) : stream :=
  let message := "Failed to spawn Claude Code CLI: " ++ m in
  reject (call_back (clear_timer s) (onError message)) message.

Definition stream_step (this : Runner) (s : stream) (ev : event) : stream :=
  match ev with
  | Stdout data => on_data s data
  | Stderr _ => s
  | Timeout =>
      if timer s
      then on_timeout this
             (mkStream (fullText s) (s_sessionId s) (buffer s) false (kills s) (calls s)
                       (promise s) (decoded s))
      else s
  | Close code => on_close s code
  | Error m => on_error s m
  end.

Definition executeStream (this : Runner) (events : list event) : stream :=
  fold_left (stream_step this) events stream_init.

End Runner.

End Claude.

(** ** gemini-cli.ts *)

Module Gemini.

Section Runner.
Context `{Platform}.

Definition buildBaseArgs (this : Runner) (options : option RunOptions) : list string :=
  let args := [] in
  let skip := nullish (opt opt_skipPermissions options) (skipPermissions this) in
  let args := if skip then push args ["--yolo"] else args in
  let args :=
    match given (model this) with
    | Some m => push args ["--model"; m]
    | None => args
    end in
  match given (opt opt_sessionId options) with
  | Some sid => push args ["--resume"; sid]
  | None => args
  end.

(** [[...this.buildBaseArgs(options), '--prompt', fullPrompt,
    '--output-format', 'json']] *)
Definition run_args (this : Runner) (prompt : string) (options : option RunOptions)
  : list string :=
  push (buildBaseArgs this options) ["--prompt"; prompt; "--output-format"; "json"].

(** [{ ...options, sessionId: undefined }] *)
Definition without_session (options : option RunOptions) : option RunOptions :=
  match options with
  | Some o => Some (mkRunOptions (opt_skipPermissions o) None (opt_channelId o))
  | None => Some (mkRunOptions None None None)
  end.

Definition exec_step (this : Runner) (e : exec) (ev : event) : exec :=
  match ev with
  | Stdout data =>
      mkExec (e_stdout e ++ data) (e_stderr e) (e_sessionId e) (e_timer e) (e_kills e)
             (e_promise e)
  | Stderr data =>
      mkExec (e_stdout e) (e_stderr e ++ data) (e_sessionId e) (e_timer e) (e_kills e)
             (e_promise e)
  | Timeout =>
      if e_timer e then
        mkExec (e_stdout e) (e_stderr e) (e_sessionId e) false (S (e_kills e))
               (settle (e_promise e)
                  (inl ("Gemini CLI timed out after " ++ JS.show_Z (timeoutMs this) ++ "ms")))
      else e
  | Close code =>
      if nonzero code then
        mkExec (e_stdout e) (e_stderr e) (e_sessionId e) false (e_kills e)
               (settle (e_promise e)
                  (inl ("Gemini CLI exited with code " ++ JS.show_code code ++ ": "
                        ++ e_stderr e)))
      else
        let sessionId :=
          match JSON_parse (JS.trim (e_stdout e)) with
          | Some json => if is_null json then e_sessionId e else required json "session_id"
          | None => e_sessionId e
          end in
        mkExec (e_stdout e) (e_stderr e) sessionId false (e_kills e)
               (settle (e_promise e) (inr (e_stdout e, sessionId)))
  | Error message =>
      mkExec (e_stdout e) (e_stderr e) (e_sessionId e) false (e_kills e)
             (settle (e_promise e) (inl ("Failed to spawn Gemini CLI: " ++ message)))
  end.

Definition execute (this : Runner) (events : list event) : exec :=
  fold_left (exec_step this) events exec_init.

Definition parseJsonResponse (output : string) : string + json :=
  match JSON_parse (JS.trim output) with
  | None => inl ("Failed to parse Gemini CLI response: " ++ output)
  | Some response => inr response
  end.

(** One [await this.execute(args, ...)] with the lines that follow it,
    which [run] has twice: in the [try] block and in the retry. *)
Definition attempt (this : Runner) (events : list event) : option (string + RunResult) :=
  match e_promise (execute this events) with
  | None => None
  | Some (inl message) => Some (inl message)
  | Some (inr (stdout, sessionId)) =>
      match parseJsonResponse stdout with
      | inl message => Some (inl message)
      | inr response =>
          if is_null response
          then Some (inl "Cannot read properties of null (reading 'response')")
          else Some (inr (mkRunResult (required response "response")
                            (if JS.truthy sessionId then sessionId
                             else required response "session_id")))
      end
  end.

Definition run (world : World) (this : Runner) (prompt : string)
  (options : option RunOptions) : Run :=
  let args := run_args this prompt options in
  match attempt this (world 0%nat args) with
  | Some (inl message) =>
      match given (opt opt_sessionId options) with
      | Some _ =>
          if JS.includes message "exited with code" then
            let retryArgs := run_args this prompt (without_session options) in
            mkRun [args; retryArgs] (attempt this (world 1%nat retryArgs))
          else mkRun [args] (Some (inl message))
      | None => mkRun [args] (Some (inl message))
      end
  | settled => mkRun [args] settled
  end.

(** *** [executeStream] and [runStream] *)

(** [[...this.buildBaseArgs(options), '--prompt', fullPrompt,
    '--output-format', 'stream-json']] *)
Definition runStream_args (this : Runner) (prompt : string) (options : option RunOptions)
  : list string :=
  push (buildBaseArgs this options) ["--prompt"; prompt; "--output-format"; "stream-json"].

(** [if (json.type === 'init' && json.session_id) sessionId = json.session_id] *)
Definition on_init (s : stream) (json : json) : stream :=
  if field_is json "type" "init" then
    match text_field json "session_id" with
    | Some sid => set_sessionId s sid
    | None => s
    end
  else s.

(** [json.type === 'message' && json.role === 'assistant' && json.content]:
    the content, when the three hold. *)
Definition delta (json : json) : option string :=
  if field_is json "type" "message" && field_is json "role" "assistant"
  then text_field json "content"
  else None.

(** One line in the ['data'] handler: the state, and whether the handler
    returned (the [return] after [reject] when the result has the status
    [error]). *)
Definition on_line (s : stream) (line : string) : stream * bool :=
  if negb (JS.truthy (JS.trim line)) then (s, false)
  else
    match JSON_parse line with
    | Some json =>
        let s := log_decoded s json in
        if is_null json then (s, false)
        else
          let s := on_init s json in
          let s :=
            match delta json with
            | Some content =>
                let s := set_fullText s (fullText s ++ content) in
                call_back s (onText content (fullText s))
            | None => s
            end in
          if field_is json "type" "result" then
            let s :=
              match text_field json "session_id" with
              | Some sid => set_sessionId s sid
              | None => s
              end in
            if field_is json "status" "error" then
              (reject (call_back s (onError "Gemini CLI returned error"))
                      "Gemini CLI returned error", true)
            else (s, false)
          else (s, false)
    | None => (s, false)
    end.

Fixpoint on_lines (s : stream) (lines : list string) : stream :=
  match lines with
  | [] => s
  | line :: rest =>
      let '(s, returned) := on_line s line in
      if returned then s else on_lines s rest
  end.

Definition on_data (s : stream) (data : string) : stream :=
  let '(lines, s) := take_lines s data in
  on_lines s lines.

Definition flush (s : stream) : stream :=
  if JS.truthy (JS.trim (buffer s)) then
    match JSON_parse (buffer s) with
    | Some json =>
        let s := log_decoded s json in
        if is_null json then s
        else
          let s := on_init s json in
          let s :=
            match delta json with
            | Some content => set_fullText s (fullText s ++ content)
            | None => s
            end in
          if field_is json "type" "result" then
            match text_field json "session_id" with
            | Some sid => set_sessionId s sid
            | None => s
            end
          else s
    | None => s
    end
  else s.

Definition on_close (s : stream) (code : option Z) : stream :=
  let s := flush (clear_timer s) in
  if nonzero code then
    let message := "Gemini CLI exited with code " ++ JS.show_code code in
    reject (call_back s (onError message)) message
  else
    let r := mkRunResult (fullText s) (s_sessionId s) in
    resolve (call_back s (onComplete r)) r.

Definition on_timeout (this : Runner) (s : stream) : stream :=
  let message := "Gemini CLI timed out after " ++ JS.show_Z (timeoutMs this) ++ "ms" in
  reject (call_back (kill_proc s) (onError message)) message.

Definition on_error (s : stream) (m : string) : stream :=
  let message := "Failed to spawn Gemini CLI: " ++ m in
  reject (call_back (clear_timer s) (onError message)) message.

Definition stream_step (this : Runner) (s : stream) (ev : event) : stream :=
  match ev with
  | Stdout data => on_data s data
  | Stderr _ => s
  | Timeout =>
      if timer s
      then on_timeout this
             (mkStream (fullText s) (s_sessionId s) (buffer s) false (kills s) (calls s)
                       (promise s) (decoded s))
      else s
  | Close code => on_close s code
  | Error m => on_error s m
  end.

Definition executeStream (this : Runner) (events : list event) : stream :=
  fold_left (stream_step this) events stream_init.

(** A streaming run: the argument lists of the processes it spawned, the
    calls made on the callbacks of the caller, which both attempts share,
    and the promise it returns.  The calls of the first process are all
    made before the second is spawned: the retry follows a rejection by
    the ['close'] handler, after which a process emits nothing. *)
Record StreamRun : Type := mkStreamRun {
  sr_spawned : list (list string);
  sr_calls : list call;
  sr_outcome : option (string + RunResult)
}.

Definition runStream (world : World) (this : Runner) (prompt : string)
  (options : option RunOptions) : StreamRun :=
  let args := runStream_args this prompt options in
  let first := executeStream this (world 0%nat args) in
  match promise first with
  | Some (inl message) =>
      match given (opt opt_sessionId options) with
      | Some _ =>
          if JS.includes message "exited with code" then
            let retryArgs := runStream_args this prompt (without_session options) in
            let second := executeStream this (world 1%nat retryArgs) in
            mkStreamRun [args; retryArgs] (calls first ++ calls second)%list (promise second)
          else mkStreamRun [args] (calls first) (Some (inl message))
      | None => mkStreamRun [args] (calls first) (Some (inl message))
      end
  | settled => mkStreamRun [args] (calls first) settled
  end.

End Runner.

End Gemini.

(** ** index.ts: the session store *)

Module Discord.

(** [`スキル「${skillName}」を実行してください。${args ? `引数: ${args}` : ''}`] *)
Definition skill_prompt (skillName args : string) : string :=
  "スキル「" ++ skillName ++ "」を実行してください。"
  ++ (if JS.truthy args then "引数: " ++ args else "").

(** [handleSkill], as far as the session store goes: [sessions] is the
    [Map] of the module, [run] the [run] method of the agent runner,
    [skipPermissions] the value of the configuration, [args] the option
    of the interaction.  The store is read before the run and written
    after a run that resolved; a run that rejected leaves it as it was,
    and so does a run that never settles.  The replies to the interaction
    are not part of the state that this function returns. *)
Definition handleSkill (run : string -> option RunOptions -> Run)
  (skipPermissions : option bool) (sessions : gmap string string)
  (channelId skillName : string) (args : option string) : gmap string string * Run :=
  let args := nullish (given args) "" in
  let skipPermissions := nullish skipPermissions false in
  let prompt := skill_prompt skillName args in
  let stored := sessions !! channelId in
  let r := run prompt (Some (mkRunOptions (Some skipPermissions) stored (Some channelId))) in
  match outcome r with
  | Some (inr res) => (<[channelId := sessionId res]> sessions, r)
  | _ => (sessions, r)
  end.

End Discord.

(** ** skills.ts *)

Module Skills.

Record Skill : Type := mkSkill {
  name : string;
  description : string;
  path : string
}.

(** A [Map<string, Skill>] with its insertion order: the entries, oldest
    first, with no key twice. *)
Fixpoint has (skillMap : list (string * Skill)) (key : string) : bool :=
  match skillMap with
  | [] => false
  | (k, _) :: rest => String.eqb k key || has rest key
  end.

(** [if (!skillMap.has(skill.name)) skillMap.set(skill.name, skill)] *)
Definition add (skillMap : list (string * Skill)) (skill : Skill) : list (string * Skill) :=
  if has skillMap (name skill) then skillMap
  else (skillMap ++ [(name skill, skill)])%list.

(** [loadSkills]: [join] is [path.join], and [loadSkillsFromDir] gives
    the skills that the function of that name reads in a directory of the
    file system. *)
Definition loadSkills (join : list string -> string)
  (loadSkillsFromDir : string -> list Skill) (workdir : string) : list Skill :=
  let skillsDirs :=
    [join [workdir; ".claude"; "skills"];
     join [workdir; ".codex"; "skills"];
     join [workdir; "skills"]] in
  map snd
    (fold_left
       (fun skillMap skillsDir => fold_left add (loadSkillsFromDir skillsDir) skillMap)
       skillsDirs []).

End Skills.

(** ** config.ts and agent-runner.ts: the backends *)

(** [AgentBackend], and the [executeStream] of the runner that
    [createAgentRunner] builds for it. *)
Inductive AgentBackend : Type := claude_code | codex.

Definition executeStream `{Platform} (backend : AgentBackend) (this : Runner)
  (events : list event) : stream :=
  match backend with
  | claude_code => Claude.executeStream this events
  | codex => Codex.executeStream this events
  end.

Definition stream_step `{Platform} (backend : AgentBackend) (this : Runner)
  (s : stream) (ev : event) : stream :=
  match backend with
  | claude_code => Claude.stream_step this s ev
  | codex => Codex.stream_step this s ev
  end.

(** * The vocabulary of the properties *)

Module Notions.

(** [args.indexOf(x)], [None] for [-1] *)
Fixpoint indexOf (args : list string) (x : string) : option nat :=
  match args with
  | [] => None
  | a :: rest =>
      if String.eqb a x then Some 0%nat
      else match indexOf rest x with
           | Some i => Some (S i)
           | None => None
           end
  end.

(** The flags that each builder pushes, in the words of the
    specification: the permission mode, [--model] and [--cd]. *)
Definition skip (this : Runner) (options : option RunOptions) : bool :=
  nullish (opt opt_skipPermissions options) (skipPermissions this).

Definition model_flags (this : Runner) : list string :=
  match given (model this) with
  | Some m => ["--model"; m]
  | None => []
  end.

Definition cd_flags (this : Runner) : list string :=
  match given (workdir this) with
  | Some w => ["--cd"; w]
  | None => []
  end.

(** The prompt with the system context prefixed to it. *)
Definition injected (systemPrompt prompt : string) : string :=
  "<system-context>" ++ JS.nl ++ systemPrompt ++ JS.nl ++ "</system-context>"
  ++ JS.nl ++ JS.nl ++ prompt.

(** Data events, and the text they carry on each stream. *)
Definition is_data (ev : event) : bool :=
  match ev with
  | Stdout _ | Stderr _ => true
  | _ => false
  end.

Fixpoint stdout_of (events : list event) : string :=
  match events with
  | [] => ""
  | Stdout data :: rest => data ++ stdout_of rest
  | _ :: rest => stdout_of rest
  end.

Fixpoint stderr_of (events : list event) : string :=
  match events with
  | [] => ""
  | Stderr data :: rest => data ++ stderr_of rest
  | _ :: rest => stderr_of rest
  end.

(** The callback that goes with a settled promise. *)
Definition call_of (o : string + RunResult) : call :=
  match o with
  | inl message => onError message
  | inr r => onComplete r
  end.

(** The [onComplete] and [onError] calls among the calls made. *)
Definition terminals (s : stream) : list call := List.filter terminal (calls s).

(** A handler either leaves the promise and the terminal callbacks as they
    were, or it fires one terminal callback and settles the promise with
    the outcome that goes with it (which does nothing to a promise that
    is settled already). *)
Inductive effect (s s' : stream) : Prop :=
| silent : promise s' = promise s -> terminals s' = terminals s -> effect s s'
| fired (o : string + RunResult) :
    promise s' = settle (promise s) o ->
    terminals s' = (terminals s ++ [call_of o])%list ->
    effect s s'.

(** The string has a line feed in it. *)
Fixpoint has_LF (s : string) : bool :=
  match s with
  | EmptyString => false
  | String c s' => Ascii.eqb c JS.LF || has_LF s'
  end.

(** The completion of an agent message, in the vocabulary of Codex. *)
Definition agent_message (json : json) (text : string) : Prop :=
  field_is json "type" "item.completed" = true
  /\ Codex.item_field json "type" = Some (JStr "agent_message")
  /\ Codex.item_field json "text" = Some (JStr text)
  /\ JS.truthy text = true.

(** No text comes out of a line: it is blank, or it does not parse, or
    what it parses to carries none of the text fields. *)
Definition no_text `{Platform} (line : string) : Prop := Codex.collect [] line = [].

(** What the decoder makes of one complete line. *)
Definition decode_line `{Platform} (line : string) : list json :=
  if JS.truthy (JS.trim line) then
    match JSON_parse line with
    | Some json => [json]
    | None => []
    end
  else [].

End Notions.

Import Notions.

(** * The scenes of the examples *)

Module Transcripts.

Definition thread_started : string := q "{'type':'thread.started','thread_id':'t-1'}".

Definition first_message : string :=
  q "{'type':'item.completed','item':{'id':'item_0','type':'agent_message','text':'first'}}".

Definition second_message : string :=
  q "{'type':'item.completed','item':{'id':'item_1','type':'agent_message','text':'second'}}".

Definition empty_message : string :=
  q "{'type':'item.completed','item':{'id':'item_1','type':'agent_message','text':''}}".

Definition turn_completed : string :=
  q "{'type':'turn.completed','usage':{'input_tokens':10,'cached_input_tokens':0,'output_tokens':2}}".

(** An event of the fallback vocabulary that [extractText] reads. *)
Definition legacy_message : string := q "{'type':'message','content':'bye'}".

Definition lines (l : list string) : string :=
  fold_right (fun line rest => line ++ JS.nl ++ rest) "" l.

(** Two completions of an agent message, then the end of the turn. *)
Definition two_completions : string :=
  lines [thread_started; first_message; second_message; turn_completed].

(** Two completions, then a legacy message event. *)
Definition completions_then_legacy : string :=
  lines [thread_started; first_message; second_message; legacy_message].

(** Two completions, the second with an empty text. *)
Definition completion_then_empty : string :=
  lines [thread_started; first_message; empty_message; turn_completed].

(** A process that writes [output] in one chunk, exits with [code], and
    does so whatever its arguments and however often it is spawned. *)
Definition writes (output : string) (code : Z) : World :=
  fun _ _ => [Stdout output; Close (Some code)].

End Transcripts.

Import Transcripts.

Module Fixtures.

(** The platform of the examples: the parser of this file, and
    [mergeTexts] as the specification gives it. *)
Definition node : Platform := mkPlatform Json.parse mergeTexts_spec.

(** A runner as [createAgentRunner] builds it from an empty configuration,
    with no [XANGI_COMMANDS.md]. *)
Definition default_runner : Runner := new_runner None None.

(** A table with two live processes and nothing registered. *)
Definition two_processes : ProcessManager.t :=
  ProcessManager.mk
    {[1%nat := ProcessManager.mkProc false false [];
      2%nat := ProcessManager.mkProc false false []]}
    ∅ [].

(** Process 1 is registered under a channel. *)
Definition registered : ProcessManager.t :=
  ProcessManager.register "C42" 1%nat two_processes.

(** The runner that spawned process 1 then ends it with [proc.kill()]
    (its timeout fired, or [cancel()] was called): the signal is sent, the
    ['close'] event has not been delivered yet, the entry is still there. *)
Definition signalled : ProcessManager.t :=
  snd (ProcessManager.kill 1%nat ProcessManager.SIGTERM registered).

(** A runner with a model, as [createAgentRunner] builds it,
    and a request that resumes a session. *)
Definition runner_with_model : Runner :=
  new_runner None (Some (mkOptions (Some "claude-sonnet-4-5-20250929") None None None)).

Definition resume_request : option RunOptions :=
  Some (mkRunOptions None (Some "abc-123") None).

(** A session that the backend no longer knows: the first process, which
    is asked to resume it, exits with code 1; a process spawned after it
    answers. *)
Definition stale_session (answer : string) : World :=
  fun n _ =>
    match n with
    | O => [Stderr "No conversation found with session ID: stale"; Close (Some 1%Z)]
    | S _ => [Stdout answer; Close (Some 0%Z)]
    end.

Definition resume_stale : option RunOptions := Some (mkRunOptions None (Some "stale") None).

Definition claude_answer : string :=
  q "{'type':'result','subtype':'success','is_error':false,'result':'ok','session_id':'fresh'}".

Definition gemini_answer : string := q "{'session_id':'fresh','response':'ok'}".

(** A result event that reports an error. *)
Definition error_result : string :=
  q "{'type':'result','subtype':'error','is_error':true,'result':'boom','session_id':'s1'}".

(** A successful result event. *)
Definition success_result : string :=
  q "{'type':'result','subtype':'success','is_error':false,'result':'Done.','session_id':'s1'}".

(** An assistant message with one text block. *)
Definition narration : string :=
  q "{'type':'assistant','message':{'content':[{'type':'text','text':'Let me check. '}]}}".

End Fixtures.

Import Fixtures.

(** * The vocabulary of the further properties *)

Module Observations.

(** The runner with another default for the permission mode, and the
    request with the permission mode left out. *)
Definition with_skipPermissions (this : Runner) (b : bool) : Runner :=
  mkRunner (model this) (timeoutMs this) (workdir this) b (systemPrompt this).

Definition without_skipPermissions (o : RunOptions) : RunOptions :=
  mkRunOptions None (opt_sessionId o) (opt_channelId o).

Definition is_stderr (ev : event) : bool :=
  match ev with
  | Stderr _ => true
  | _ => false
  end.




(** The deltas put end to end. *)
Fixpoint text_of (deltas : list string) : string :=
  match deltas with
  | [] => ""
  | d :: rest => d ++ text_of rest
  end.

(** The [onText] calls that a list of deltas gives, from the text
    accumulated before them: each with the delta and the running total. *)
Fixpoint text_calls (fullText : string) (deltas : list string) : list call :=
  match deltas with
  | [] => []
  | d :: rest => onText d (fullText ++ d) :: text_calls (fullText ++ d) rest
  end.



(** A text block of the content of an assistant message. *)
Definition text_block (text : string) : json :=
  JObj [("type", JStr "text"); ("text", JStr text)].

(** No character of the string is the letter e. *)
Fixpoint no_e (s : string) : bool :=
  match s with
  | EmptyString => true
  | String c s' => negb (Ascii.eqb c "e") && no_e s'
  end.


(** The stream of a Gemini process: the session, an answer in two
    messages, the result. *)
Definition gemini_stream : string :=
  lines [q "{'type':'init','session_id':'g-1'}";
         q "{'type':'message','role':'user','content':'hi'}";
         q "{'type':'message','role':'assistant','content':'Hel','delta':true}";
         q "{'type':'message','role':'assistant','content':'lo','delta':true}";
         q "{'type':'result','status':'success'}"].

(** A process that writes the beginning of an answer and then hangs. *)
Definition hangs : World :=
  fun _ _ =>
    [Stdout (q "{'type':'message','role':'assistant','content':'Hel'}" ++ JS.nl); Timeout].

(** The skills that [loadSkills] reads, in the order of the three
    directories it searches. *)
Definition found (join : list string -> string)
  (loadSkillsFromDir : string -> list Skills.Skill) (workdir : string)
  : list Skills.Skill :=
  (loadSkillsFromDir (join [workdir; ".claude"; "skills"])
   ++ loadSkillsFromDir (join [workdir; ".codex"; "skills"])
   ++ loadSkillsFromDir (join [workdir; "skills"]))%list.

(** The keys of the map of [loadSkills] are the names of its skills. *)
Definition keyed (skillMap : list (string * Skills.Skill)) : Prop :=
  forall k v, In (k, v) skillMap -> k = Skills.name v.

(** A file system with the same skill in two of the directories. *)
Definition two_dirs (skillsDir : string) : list Skills.Skill :=
  if String.eqb skillsDir "w/.claude/skills"
  then [Skills.mkSkill "deploy" "ship it" "w/.claude/skills/deploy/SKILL.md"]
  else if String.eqb skillsDir "w/skills"
  then [Skills.mkSkill "deploy" "old" "w/skills/deploy.md";
        Skills.mkSkill "lint" "" "w/skills/lint.md"]
  else [].

End Observations.

Import Observations.

(** * Properties *)

(** ** The model on small inputs *)

Example parse_a : Json.parse (q "{'a':1}") = Some (JObj [("a", JNum 1)]).
Proof. vm_compute. reflexivity. Qed.

Example parse_nested :
  Json.parse (q "{'type':'item.completed', 'item':{'type':'agent_message','text':'hi'}, 'n':[1,-2,true,null]}")
  = Some (JObj [("type", JStr "item.completed");
                ("item", JObj [("type", JStr "agent_message"); ("text", JStr "hi")]);
                ("n", JArr [JNum 1; JNum (-2); JBool true; JNull])]).
Proof. vm_compute. reflexivity. Qed.

Example parse_fragment : Json.parse (q "{'b':") = None.
Proof. vm_compute. reflexivity. Qed.

Example split_two : JS.split ("a" ++ JS.nl ++ "b" ++ JS.nl) = ["a"; "b"; ""].
Proof. reflexivity. Qed.

Example trim_both : JS.trim (" a b " ++ JS.nl) = "a b".
Proof. reflexivity. Qed.

(** ** The process registry *)

Module ProcessManagerProps.
Import ProcessManager.

Lemma stop_live (s : t) (channelId : string) (proc : handle) (c : ChildProcess) :
  processes s !! channelId = Some proc ->
  heap s !! proc = Some c ->
  killed c = false ->
  exited c = false ->
  stop channelId s =
    (true, mk (<[proc := mkProc true false (received c ++ [SIGTERM])]> (heap s))
              (delete channelId (processes s)) (listeners s)).
Proof.
  intros Hk Hp Hkilled Hexited.
  unfold stop. rewrite Hk.
  unfold is_killed. rewrite Hp, Hkilled.
  unfold kill. rewrite Hp, Hexited. reflexivity.
Qed.

Lemma stop_killed (s : t) (channelId : string) (proc : handle) (c : ChildProcess) :
  processes s !! channelId = Some proc ->
  heap s !! proc = Some c ->
  killed c = true ->
  stop channelId s = (false, s).
Proof.
  intros Hk Hp Hkilled.
  unfold stop. rewrite Hk.
  unfold is_killed. rewrite Hp, Hkilled. reflexivity.
Qed.

Lemma register_lookup (s : t) (channelId : string) (proc : handle) :
  processes (register channelId proc s) !! channelId = Some proc.
Proof. unfold register. simpl. apply lookup_insert_eq. Qed.

Lemma stop_other (s : t) (channelId k : string) :
  k <> channelId ->
  processes (snd (stop channelId s)) !! k = processes s !! k.
Proof.
  intros Hne. unfold stop.
  destruct (processes s !! channelId) as [p|] eqn:Hk; [|reflexivity].
  destruct (is_killed s p); [reflexivity|].
  simpl. rewrite lookup_delete_ne by congruence.
  unfold kill. destruct (heap s !! p) as [c|]; [|reflexivity].
  destruct (exited c); reflexivity.
Qed.

(** Registration leaves the other channels as they were. *)
Lemma register_other (s : t) (channelId k : string) (proc : handle) :
  k <> channelId ->
  processes (register channelId proc s) !! k = processes s !! k.
Proof.
  intros Hne. unfold register. simpl.
  rewrite lookup_insert_ne by congruence. apply stop_other. exact Hne.
Qed.

(** The guard of the ['close'] listener: the exit of a superseded process
    does not remove the entry of the process that replaced it. *)
Lemma on_close_stale (s : t) (channelId : string) (old new : handle) :
  processes s !! channelId = Some new ->
  old <> new ->
  on_close channelId old s = s.
Proof.
  intros Hk Hne. unfold on_close. rewrite Hk.
  destruct (Nat.eqb new old) eqn:E; [|reflexivity].
  apply Nat.eqb_eq in E. congruence.
Qed.

(** C1, as the code has it.  Let [p1] be registered under [channelId] and
    not have exited when [register channelId p2] is called.  If [p1] has
    not been signalled yet (its [killed] flag is unset), [stop] sends it
    SIGTERM and removes its entry before [p2] is stored.  If [p1] was
    already signalled, [stop] does nothing and [p2] overwrites the entry.
    In both cases the table then holds [p2], and nothing else, under
    [channelId], and [isRunning channelId] reads the state of [p2]
    alone. *)
Theorem register_replaces_registered_process
  (s : t) (channelId : string) (p1 p2 : handle) (c1 : ChildProcess) :
  processes s !! channelId = Some p1 ->
  heap s !! p1 = Some c1 ->
  exited c1 = false ->
  (killed c1 = false ->
     fst (stop channelId s) = true
     /\ signals (snd (stop channelId s)) p1 = (received c1 ++ [SIGTERM])%list
     /\ is_killed (snd (stop channelId s)) p1 = true
     /\ processes (snd (stop channelId s)) !! channelId = None)
  /\ (killed c1 = true -> stop channelId s = (false, s))
  /\ register channelId p2 s =
       mk (heap (snd (stop channelId s)))
          (<[channelId := p2]> (processes (snd (stop channelId s))))
          (listeners (snd (stop channelId s)) ++ [(p2, channelId)])%list
  /\ processes (register channelId p2 s) !! channelId = Some p2
  /\ (forall p, processes (register channelId p2 s) !! channelId = Some p -> p = p2)
  /\ isRunning channelId (register channelId p2 s)
     = negb (is_killed (register channelId p2 s) p2).
Proof.
  intros Hk Hp Hexited.
  split; [|split; [|split; [|split; [|split]]]].
  - intros Hkilled.
    rewrite (stop_live s channelId p1 c1 Hk Hp Hkilled Hexited). simpl.
    unfold signals, is_killed. simpl.
    rewrite lookup_insert_eq, lookup_delete_eq. auto.
  - intros Hkilled. exact (stop_killed s channelId p1 c1 Hk Hp Hkilled).
  - reflexivity.
  - apply register_lookup.
  - intros p Hq. rewrite register_lookup in Hq. congruence.
  - unfold isRunning. rewrite register_lookup. reflexivity.
Qed.

Lemma register_replaces_registered_process_witness :
  signals (snd (stop "C42" registered)) 1%nat = [SIGTERM]
  /\ processes (snd (stop "C42" registered)) !! "C42" = None
  /\ processes (register "C42" 2%nat registered) !! "C42" = Some 2%nat
  /\ isRunning "C42" (register "C42" 2%nat registered) = true.
Proof.
  destruct (register_replaces_registered_process registered "C42" 1%nat 2%nat
              (mkProc false false []))
    as (Hlive & _ & _ & Hnew & _ & _).
  - vm_compute. reflexivity.
  - vm_compute. reflexivity.
  - reflexivity.
  - destruct (Hlive eq_refl) as (_ & Hsig & _ & Hgone).
    split; [exact Hsig|]. split; [exact Hgone|]. split; [exact Hnew|].
    vm_compute. reflexivity.
Defined.

(** C1 fails as stated when [p1] has not exited but was already signalled
    by its runner: [register] then sends it nothing (it has received the
    one signal of the runner, before and after), and [stop] returns
    [false] and leaves the entry in place, which [register] overwrites. *)
Lemma register_skips_killed_process :
  processes signalled !! "C42" = Some 1%nat
  /\ heap signalled !! 1%nat = Some (mkProc true false [SIGTERM])
  /\ stop "C42" signalled = (false, signalled)
  /\ processes (snd (stop "C42" signalled)) !! "C42" = Some 1%nat
  /\ signals (register "C42" 2%nat signalled) 1%nat = [SIGTERM]
  /\ processes (register "C42" 2%nat signalled) !! "C42" = Some 2%nat.
Proof. vm_compute. repeat split; reflexivity. Qed.

End ProcessManagerProps.

(** ** The command builder *)

Module CommandBuilder.

Lemma last_push (args : list string) (x d : string) : List.last (push args [x]) d = x.
Proof. unfold push. apply last_last. Qed.

Lemma truthy_app (a b : string) : JS.truthy a = true -> JS.truthy (a ++ b) = true.
Proof. destruct a; [discriminate | reflexivity]. Qed.

(** The system prompt that the constructor builds is never empty. *)
Lemma systemPrompt_truthy (file : option string) (o : option BaseRunnerOptions) :
  JS.truthy (systemPrompt (new_runner file o)) = true.
Proof. apply truthy_app. reflexivity. Qed.

(** The shape of the argument list of the Codex runner. *)
Lemma codex_args (this : Runner) (prompt : string) (options : option RunOptions) :
  Codex.buildArgs this prompt options =
    (["exec"; "--json";
      if skip this options then "--dangerously-bypass-approvals-and-sandbox" else "--full-auto";
      "--skip-git-repo-check"]
     ++ model_flags this ++ cd_flags this
     ++ match given (opt opt_sessionId options) with
        | Some sid => ["resume"; sid]
        | None => []
        end
     ++ [if JS.truthy (systemPrompt this) then injected (systemPrompt this) prompt
         else prompt])%list.
Proof.
  unfold Codex.buildArgs, skip, model_flags, cd_flags, injected, push.
  destruct (nullish (opt opt_skipPermissions options) (skipPermissions this));
    destruct (given (model this)); destruct (given (workdir this));
    destruct (given (opt opt_sessionId options)); reflexivity.
Qed.

(** C4.  A request with [skipPermissions = false] to the Codex runner:
    the argument list begins with [exec], [--json], [--full-auto],
    [--skip-git-repo-check], in that order, and its last element is the
    prompt of the caller with the system-context preamble before it. *)
Theorem codex_full_auto_args
  (file : option string) (o : option BaseRunnerOptions) (prompt : string)
  (sid channel : option string) :
  firstn 4 (Codex.buildArgs (new_runner file o) prompt
                            (Some (mkRunOptions (Some false) sid channel)))
  = ["exec"; "--json"; "--full-auto"; "--skip-git-repo-check"]
  /\ List.last (Codex.buildArgs (new_runner file o) prompt
                                (Some (mkRunOptions (Some false) sid channel))) ""
     = injected (buildSystemPrompt file) prompt.
Proof.
  split.
  - rewrite codex_args. reflexivity.
  - unfold Codex.buildArgs. rewrite last_push.
    rewrite systemPrompt_truthy. reflexivity.
Qed.

(** C8, as the code has it.  With a session identifier that is not empty,
    every builder pushes the resume token and, right after it, the
    identifier.  The Codex runner pushes them after the [--model] and
    [--cd] flags and before the prompt, the Gemini runner after its
    [--model] flag; the Claude Code runner pushes [--resume] before its
    [--model] flag, in [run] and in [runStream]. *)
Theorem resume_token_position
  (this : Runner) (prompt : string) (options : option RunOptions) (sid : string) :
  given (opt opt_sessionId options) = Some sid ->
  Codex.buildArgs this prompt options =
    ((["exec"; "--json";
       if skip this options then "--dangerously-bypass-approvals-and-sandbox"
       else "--full-auto";
       "--skip-git-repo-check"] ++ model_flags this ++ cd_flags this)
     ++ ["resume"; sid]
     ++ [if JS.truthy (systemPrompt this) then injected (systemPrompt this) prompt
         else prompt])%list
  /\ Gemini.buildBaseArgs this options =
       (((if skip this options then ["--yolo"] else []) ++ model_flags this)
        ++ ["--resume"; sid])%list
  /\ Claude.run_args this prompt options =
       ((["-p"; "--output-format"; "json"]
         ++ (if skip this options then ["--dangerously-skip-permissions"] else []))
        ++ ["--resume"; sid]
        ++ model_flags this ++ ["--append-system-prompt"; systemPrompt this; prompt])%list
  /\ Claude.runStream_args this prompt options =
       ((["-p"; "--output-format"; "stream-json"; "--verbose"]
         ++ (if skip this options then ["--dangerously-skip-permissions"] else []))
        ++ ["--resume"; sid]
        ++ model_flags this ++ ["--append-system-prompt"; systemPrompt this; prompt])%list.
Proof.
  intros Hsid. split; [|split; [|split]].
  - rewrite codex_args, Hsid. rewrite <- !app_assoc. reflexivity.
  - unfold Gemini.buildBaseArgs, skip, model_flags, push. rewrite Hsid.
    destruct (nullish (opt opt_skipPermissions options) (skipPermissions this));
      destruct (given (model this)); reflexivity.
  - unfold Claude.run_args, skip, model_flags, push. rewrite Hsid.
    destruct (nullish (opt opt_skipPermissions options) (skipPermissions this));
      destruct (given (model this)); reflexivity.
  - unfold Claude.runStream_args, skip, model_flags, push. rewrite Hsid.
    destruct (nullish (opt opt_skipPermissions options) (skipPermissions this));
      destruct (given (model this)); reflexivity.
Qed.

Lemma resume_token_position_witness :
  Codex.buildArgs runner_with_model "hi" resume_request =
    ["exec"; "--json"; "--full-auto"; "--skip-git-repo-check";
     "--model"; "claude-sonnet-4-5-20250929"; "resume"; "abc-123";
     injected (buildSystemPrompt None) "hi"]
  /\ Gemini.buildBaseArgs runner_with_model resume_request =
       ["--model"; "claude-sonnet-4-5-20250929"; "--resume"; "abc-123"].
Proof.
  destruct (resume_token_position runner_with_model "hi" resume_request "abc-123" eq_refl)
    as (Hcodex & Hgemini & _ & _).
  split; [exact Hcodex | exact Hgemini].
Defined.

(** C8 fails as stated on the Claude Code runner: with a model set,
    [--resume] and the identifier come before [--model], not after.  And
    a session identifier that is the empty string, which a Codex run that
    saw no thread identifier returns, is no session at all for the
    builders. *)
Lemma claude_resume_precedes_model :
  Claude.run_args runner_with_model "hi" resume_request =
    ["-p"; "--output-format"; "json"; "--resume"; "abc-123";
     "--model"; "claude-sonnet-4-5-20250929";
     "--append-system-prompt"; buildSystemPrompt None; "hi"]
  /\ indexOf (Claude.run_args runner_with_model "hi" resume_request) "--resume" = Some 3%nat
  /\ indexOf (Claude.run_args runner_with_model "hi" resume_request) "--model" = Some 5%nat
  /\ indexOf (Codex.buildArgs runner_with_model "hi" (Some (mkRunOptions None (Some "") None)))
             "resume" = None.
Proof. vm_compute. repeat split; reflexivity. Qed.

End CommandBuilder.

(** ** Shared facts on strings and promises *)

Lemma append_assoc (a b c : string) : (a ++ b) ++ c = a ++ (b ++ c).
Proof. induction a as [|x a IH]; simpl; [reflexivity | rewrite IH; reflexivity]. Qed.

Lemma append_empty_r (a : string) : a ++ "" = a.
Proof. induction a as [|x a IH]; simpl; [reflexivity | rewrite IH; reflexivity]. Qed.

(** ** The Codex interpreter *)

Module CodexProps.

Section WithPlatform.
Context `{Platform}.

Lemma collect_acc (acc : list string) (line : string) :
  Codex.collect acc line = (acc ++ Codex.collect [] line)%list.
Proof.
  unfold Codex.collect, push.
  destruct (negb (JS.truthy (JS.trim line))); [rewrite app_nil_r; reflexivity|].
  destruct (JSON_parse line) as [j|]; [|rewrite app_nil_r; reflexivity].
  destruct (is_null j); [rewrite app_nil_r; reflexivity|].
  destruct (Codex.extractText j) as [[text [|]]|]; rewrite ?app_nil_r; reflexivity.
Qed.

Lemma collect_fold (lines : list string) (acc : list string) :
  fold_left Codex.collect lines acc
  = (acc ++ flat_map (Codex.collect []) lines)%list.
Proof.
  revert acc. induction lines as [|line lines IH]; intros acc; simpl.
  - rewrite app_nil_r. reflexivity.
  - rewrite IH, (collect_acc acc line), <- app_assoc. reflexivity.
Qed.

(** [extractResult] returns the last text that a line yields, and the raw
    output when no line yields one. *)
Lemma extractResult_last (output : string) :
  Codex.extractResult output
  = List.last (flat_map (Codex.collect []) (JS.split (JS.trim output))) output.
Proof.
  unfold Codex.extractResult, Codex.messageParts. rewrite collect_fold. simpl.
  destruct (flat_map (Codex.collect []) (JS.split (JS.trim output))) as [|p ps] eqn:E;
    [reflexivity|].
  clear E. revert p. induction ps as [|x ps IH]; intros p; [reflexivity|].
  simpl in *. destruct ps; [reflexivity | apply IH].
Qed.

Lemma flat_map_nil {A B : Type} (f : A -> list B) (l : list A) :
  (forall x, In x l -> f x = []) -> flat_map f l = [].
Proof.
  induction l as [|x l IH]; intros Hall; simpl; [reflexivity|].
  rewrite (Hall x (or_introl eq_refl)). apply IH.
  intros y Hy. apply Hall. right. exact Hy.
Qed.

Lemma agent_message_text (json : json) (text : string) :
  agent_message json text ->
  is_null json = false /\ Codex.extractText json = Some (text, true).
Proof.
  intros (Htype & Hitem & Htext & Htruthy). split.
  - destruct json; try reflexivity. discriminate Htype.
  - unfold Codex.extractText. rewrite Htype, Hitem, Htext, Htruthy. reflexivity.
Qed.

(** C5, as the code has it.  The text that a Codex run returns is the text
    of the last line that yields one.  When that line is the completion of
    an agent message, the result is the text of this completion alone,
    whatever the completions before it said: each replaces what was
    accumulated, in [run] and in [runStream] alike. *)
Theorem codex_last_completion_replaces
  (output : string) (before after : list string) (line : string) (json : json)
  (text : string) :
  JS.split (JS.trim output) = (before ++ line :: after)%list ->
  JS.truthy (JS.trim line) = true ->
  JSON_parse line = Some json ->
  agent_message json text ->
  (forall l, In l after -> no_text l) ->
  Codex.extractResult output = text
  /\ (forall s, fullText (Codex.on_line s line) = text)
  /\ (forall s, exists l, calls (Codex.on_line s line) = (l ++ [onText text text])%list).
Proof.
  intros Hsplit Hline Hparse Hmsg Hafter.
  destruct (agent_message_text json text Hmsg) as [Hnull Htext].
  split; [|split].
  - rewrite extractResult_last, Hsplit, flat_map_app. simpl.
    rewrite (flat_map_nil _ after Hafter), app_nil_r.
    unfold Codex.collect at 2. rewrite Hline, Hparse, Hnull, Htext. simpl.
    unfold push. simpl. apply last_last.
  - intros s. unfold Codex.on_line, Codex.interpret.
    rewrite Hline, Hparse, Hnull, Htext. simpl.
    destruct (Codex.extractSessionId json); reflexivity.
  - intros s. unfold Codex.on_line, Codex.interpret.
    rewrite Hline, Hparse, Hnull, Htext. simpl.
    destruct (Codex.extractSessionId json); simpl; eexists; reflexivity.
Qed.


Lemma exec_data (this : Runner) (events : list event) (e : exec) :
  forallb is_data events = true ->
  e_stdout (fold_left (Codex.exec_step this) events e) = e_stdout e ++ stdout_of events
  /\ e_stderr (fold_left (Codex.exec_step this) events e) = e_stderr e ++ stderr_of events
  /\ e_promise (fold_left (Codex.exec_step this) events e) = e_promise e.
Proof.
  revert e. induction events as [|ev events IH]; intros e Hdata; cbn [fold_left].
  - simpl. rewrite !append_empty_r. auto.
  - simpl in Hdata. apply andb_prop in Hdata as [Hev Hdata].
    destruct (IH (Codex.exec_step this e ev) Hdata) as (E1 & E2 & E3).
    rewrite E1, E2, E3.
    destruct ev; try discriminate Hev; simpl; rewrite ?append_assoc; auto.
Qed.

Lemma exec_settled (this : Runner) (events : list event) (e : exec)
  (v : string + string * string) :
  e_promise e = Some v ->
  e_promise (fold_left (Codex.exec_step this) events e) = Some v.
Proof.
  revert e. induction events as [|ev events IH]; intros e Hv; simpl; [exact Hv|].
  apply IH. destruct ev; simpl; try exact Hv.
  - destruct (e_timer e); simpl; [rewrite Hv; reflexivity | exact Hv].
  - rewrite Hv. reflexivity.
  - rewrite Hv. reflexivity.
Qed.


End WithPlatform.

End CodexProps.

Module CodexExamples.
Import Transcripts CodexProps.

Lemma codex_last_completion_replaces_witness :
  Codex.extractResult (H := node) two_completions = "second".
Proof.
  refine (proj1 (codex_last_completion_replaces (H := node) two_completions
                   [thread_started; first_message] [turn_completed] second_message
                   (JObj [("type", JStr "item.completed");
                          ("item", JObj [("id", JStr "item_1");
                                         ("type", JStr "agent_message");
                                         ("text", JStr "second")])])
                   "second" _ _ _ _ _)).
  - vm_compute. reflexivity.
  - vm_compute. reflexivity.
  - vm_compute. reflexivity.
  - repeat split; vm_compute; reflexivity.
  - intros l [<- | []]. vm_compute. reflexivity.
Defined.

(** C5 fails as stated: after two completions of an agent message, a line
    of the fallback vocabulary ([message] with a [content], or any event
    with a [result]) supersedes them, and a completion whose text is empty
    is passed over, so that the result is the text of the one before. *)
Lemma codex_later_event_supersedes :
  Codex.extractResult (H := node) completions_then_legacy = "bye"
  /\ outcome (Codex.run (H := node) (writes completions_then_legacy 0) default_runner "hi" None)
     = Some (inr (mkRunResult "bye" "t-1"))
  /\ fullText (Codex.executeStream (H := node) default_runner
                 (writes completions_then_legacy 0 0%nat [])) = "bye"
  /\ Codex.extractResult (H := node) completion_then_empty = "first".
Proof. vm_compute. repeat split; reflexivity. Qed.

End CodexExamples.

(** ** The stream decoder *)

Module DecoderProps.

Section WithPlatform.
Context `{Platform}.

(** The flush of the Codex runner at ['close']: a fragment that is not
    blank and parses is decoded, and read for the session identifier and
    the text as a complete line is. *)
Lemma codex_flush_fragment (s : stream) (json : json) :
  JS.truthy (JS.trim (buffer s)) = true ->
  JSON_parse (buffer s) = Some json ->
  decoded (Codex.flush s) = (decoded s ++ [json])%list
  /\ (is_null json = false ->
      fullText (Codex.flush s) = fullText (fst (Codex.interpret s json))
      /\ s_sessionId (Codex.flush s) = s_sessionId (fst (Codex.interpret s json))).
Proof.
  intros Hfragment Hparse. unfold Codex.flush. rewrite Hfragment, Hparse.
  destruct (is_null json) eqn:Hnull.
  - split; [reflexivity | discriminate].
  - unfold Codex.interpret.
    destruct (Codex.extractSessionId json); destruct (Codex.extractText json) as [[text b]|];
      simpl; auto.
Qed.

Lemma codex_on_line_decoded (s : stream) (line : string) :
  decoded (Codex.on_line s line) = (decoded s ++ decode_line line)%list
  /\ buffer (Codex.on_line s line) = buffer s.
Proof.
  unfold Codex.on_line, decode_line.
  destruct (JS.truthy (JS.trim line)); simpl; [|rewrite app_nil_r; auto].
  destruct (JSON_parse line) as [json|]; [|rewrite app_nil_r; auto].
  destruct (is_null json); [auto|].
  unfold Codex.interpret.
  destruct (Codex.extractSessionId json); destruct (Codex.extractText json) as [[text b]|];
    simpl; auto.
Qed.

Lemma codex_on_lines_decoded (lines : list string) (s : stream) :
  decoded (fold_left Codex.on_line lines s) = (decoded s ++ flat_map decode_line lines)%list
  /\ buffer (fold_left Codex.on_line lines s) = buffer s.
Proof.
  revert s. induction lines as [|line lines IH]; intros s; cbn [fold_left flat_map].
  - rewrite app_nil_r. auto.
  - destruct (IH (Codex.on_line s line)) as [-> ->].
    destruct (codex_on_line_decoded s line) as [-> ->].
    rewrite <- app_assoc. auto.
Qed.

(** The decoder over chunk boundaries: a chunk is appended to the fragment
    kept from the chunks before it; every complete line of the whole is
    decoded, in order, and what follows the last line feed is kept. *)
Lemma codex_on_data_decoded (s : stream) (data : string) :
  decoded (Codex.on_data s data)
  = (decoded s ++ flat_map decode_line (fst (JS.pop (JS.split (buffer s ++ data)))))%list
  /\ buffer (Codex.on_data s data)
     = nullish (given (snd (JS.pop (JS.split (buffer s ++ data))))) "".
Proof.
  unfold Codex.on_data, take_lines.
  destruct (JS.pop (JS.split (buffer s ++ data))) as [lines last]. simpl.
  destruct (codex_on_lines_decoded lines (set_buffer s (nullish (given last) ""))) as [-> ->].
  auto.
Qed.

(** C7.  Fed [{"a":1}], a line feed and [{"b":] in one chunk, then [2}]
    and a line feed in the next, the decoder of [executeStream] decodes
    exactly the two objects, in that order, and keeps nothing.  At
    ['close'], a fragment left in the buffer that is not blank and parses
    is still decoded and interpreted, though no line feed followed it. *)
Theorem decoder_chunks_and_flush (this : Runner) (a b : json) :
  JSON_parse (q "{'a':1}") = Some a ->
  JSON_parse (q "{'b':2}") = Some b ->
  decoded (Codex.executeStream this
             [Stdout (q "{'a':1}" ++ JS.nl ++ q "{'b':"); Stdout ("2}" ++ JS.nl)])
  = [a; b]
  /\ buffer (Codex.executeStream this
               [Stdout (q "{'a':1}" ++ JS.nl ++ q "{'b':"); Stdout ("2}" ++ JS.nl)])
     = ""
  /\ buffer (Codex.executeStream this [Stdout (q "{'a':1}" ++ JS.nl ++ q "{'b':")])
     = q "{'b':"
  /\ (forall (s : stream) (code : option Z) (json : json),
        JS.truthy (JS.trim (buffer s)) = true ->
        JSON_parse (buffer s) = Some json ->
        decoded (Codex.on_close s code) = (decoded s ++ [json])%list
        /\ (is_null json = false ->
            fullText (Codex.on_close s code)
            = fullText (fst (Codex.interpret s json))
            /\ s_sessionId (Codex.on_close s code)
               = s_sessionId (fst (Codex.interpret s json)))).
Proof.
  intros Ha Hb.
  assert (Hfirst :
    decoded (Codex.on_data stream_init (q "{'a':1}" ++ JS.nl ++ q "{'b':")) = [a]
    /\ buffer (Codex.on_data stream_init (q "{'a':1}" ++ JS.nl ++ q "{'b':")) = q "{'b':").
  { destruct (codex_on_data_decoded stream_init (q "{'a':1}" ++ JS.nl ++ q "{'b':"))
      as [-> ->].
    split; [|reflexivity].
    change (decode_line (q "{'a':1}") ++ [] = [a])%list.
    unfold decode_line. rewrite Ha. reflexivity. }
  destruct Hfirst as [Hd1 Hb1].
  assert (Hsecond :
    decoded (Codex.on_data (Codex.on_data stream_init (q "{'a':1}" ++ JS.nl ++ q "{'b':"))
                           ("2}" ++ JS.nl)) = [a; b]
    /\ buffer (Codex.on_data (Codex.on_data stream_init (q "{'a':1}" ++ JS.nl ++ q "{'b':"))
                             ("2}" ++ JS.nl)) = "").
  { destruct (codex_on_data_decoded
                (Codex.on_data stream_init (q "{'a':1}" ++ JS.nl ++ q "{'b':"))
                ("2}" ++ JS.nl)) as [-> ->].
    rewrite Hd1, Hb1. split; [|reflexivity].
    change ([a] ++ decode_line (q "{'b':2}") ++ [] = [a; b])%list.
    unfold decode_line. rewrite Hb. reflexivity. }
  split; [exact (proj1 Hsecond)|]. split; [exact (proj2 Hsecond)|]. split; [exact Hb1|].
  intros s code json Hfragment Hparse.
  destruct (codex_flush_fragment (clear_timer s) json Hfragment Hparse) as [Hd Hi].
  assert (Hframe :
    fullText (fst (Codex.interpret (clear_timer s) json))
    = fullText (fst (Codex.interpret s json))
    /\ s_sessionId (fst (Codex.interpret (clear_timer s) json))
       = s_sessionId (fst (Codex.interpret s json))).
  { unfold Codex.interpret.
    destruct (Codex.extractSessionId json); destruct (Codex.extractText json) as [[text c]|];
      simpl; auto. }
  destruct Hframe as [<- <-].
  unfold Codex.on_close.
  destruct (nonzero code); simpl; (split; [exact Hd | exact Hi]).
Qed.

End WithPlatform.

Lemma decoder_chunks_and_flush_witness :
  decoded (Codex.executeStream (H := node) default_runner
             [Stdout (q "{'a':1}" ++ JS.nl ++ q "{'b':"); Stdout ("2}" ++ JS.nl)])
  = [JObj [("a", JNum 1)]; JObj [("b", JNum 2)]].
Proof.
  refine (proj1 (decoder_chunks_and_flush (H := node) default_runner _ _ _ _)).
  - vm_compute. reflexivity.
  - vm_compute. reflexivity.
Defined.

(** The last event of a run arrives without a line feed: the flush reads
    it, and the run resolves with its text. *)
Example flush_last_event :
  promise (Codex.executeStream (H := node) default_runner
             [Stdout (Transcripts.thread_started ++ JS.nl);
              Stdout Transcripts.first_message;
              Close (Some 0%Z)])
  = Some (inr (mkRunResult "first" "t-1")).
Proof. vm_compute. reflexivity. Qed.

End DecoderProps.

(** ** Runs to completion *)

Module RunProps.
Import Transcripts.

Section WithPlatform.
Context `{Platform}.

Lemma claude_exec_data (this : Runner) (events : list event) (e : exec) :
  forallb is_data events = true ->
  e_stdout (fold_left (Claude.exec_step this) events e) = e_stdout e ++ stdout_of events
  /\ e_stderr (fold_left (Claude.exec_step this) events e) = e_stderr e ++ stderr_of events
  /\ e_promise (fold_left (Claude.exec_step this) events e) = e_promise e.
Proof.
  revert e. induction events as [|ev events IH]; intros e Hdata; cbn [fold_left].
  - simpl. rewrite !append_empty_r. auto.
  - simpl in Hdata. apply andb_prop in Hdata as [Hev Hdata].
    destruct (IH (Claude.exec_step this e ev) Hdata) as (E1 & E2 & E3).
    rewrite E1, E2, E3.
    destruct ev; try discriminate Hev; simpl; rewrite ?append_assoc; auto.
Qed.

Lemma claude_exec_settled (this : Runner) (events : list event) (e : exec)
  (v : string + string * string) :
  e_promise e = Some v ->
  e_promise (fold_left (Claude.exec_step this) events e) = Some v.
Proof.
  revert e. induction events as [|ev events IH]; intros e Hv; simpl; [exact Hv|].
  apply IH. destruct ev; simpl; try exact Hv.
  - destruct (e_timer e); simpl; [rewrite Hv; reflexivity | exact Hv].
  - rewrite Hv. reflexivity.
  - rewrite Hv. reflexivity.
Qed.

Lemma gemini_exec_data (this : Runner) (events : list event) (e : exec) :
  forallb is_data events = true ->
  e_stdout (fold_left (Gemini.exec_step this) events e) = e_stdout e ++ stdout_of events
  /\ e_stderr (fold_left (Gemini.exec_step this) events e) = e_stderr e ++ stderr_of events
  /\ e_promise (fold_left (Gemini.exec_step this) events e) = e_promise e.
Proof.
  revert e. induction events as [|ev events IH]; intros e Hdata; cbn [fold_left].
  - simpl. rewrite !append_empty_r. auto.
  - simpl in Hdata. apply andb_prop in Hdata as [Hev Hdata].
    destruct (IH (Gemini.exec_step this e ev) Hdata) as (E1 & E2 & E3).
    rewrite E1, E2, E3.
    destruct ev; try discriminate Hev; simpl; rewrite ?append_assoc; auto.
Qed.

Lemma gemini_exec_settled (this : Runner) (events : list event) (e : exec)
  (v : string + string * string) :
  e_promise e = Some v ->
  e_promise (fold_left (Gemini.exec_step this) events e) = Some v.
Proof.
  revert e. induction events as [|ev events IH]; intros e Hv; simpl; [exact Hv|].
  apply IH. destruct ev; simpl; try exact Hv.
  - destruct (e_timer e); simpl; [rewrite Hv; reflexivity | exact Hv].
  - destruct (nonzero code); simpl; rewrite Hv; reflexivity.
  - rewrite Hv. reflexivity.
Qed.

(** A process that only writes, then closes: what [execute] settles with
    on each runner. *)
Lemma claude_execute_close (this : Runner) (data rest : list event) (code : option Z) :
  forallb is_data data = true ->
  e_promise (Claude.execute this (data ++ Close code :: rest)%list)
  = Some (if nonzero code
          then inl ("Claude Code CLI exited with code " ++ JS.show_code code ++ ": "
                    ++ stderr_of data)
          else inr (stdout_of data, "")).
Proof.
  intros Hdata. unfold Claude.execute. rewrite fold_left_app. cbn [fold_left].
  destruct (claude_exec_data this data exec_init Hdata) as (Hout & Herr & Hp).
  apply claude_exec_settled. simpl. rewrite Hout, Herr, Hp. reflexivity.
Qed.

Lemma gemini_execute_exit (this : Runner) (data rest : list event) (code : option Z) :
  forallb is_data data = true ->
  nonzero code = true ->
  e_promise (Gemini.execute this (data ++ Close code :: rest)%list)
  = Some (inl ("Gemini CLI exited with code " ++ JS.show_code code ++ ": " ++ stderr_of data)).
Proof.
  intros Hdata Hcode. unfold Gemini.execute. rewrite fold_left_app. cbn [fold_left].
  destruct (gemini_exec_data this data exec_init Hdata) as (Hout & Herr & Hp).
  apply gemini_exec_settled. simpl. rewrite Hcode. simpl. rewrite Herr, Hp. reflexivity.
Qed.

(** The message of an exit error passes the test of the retry. *)
Lemma exit_message_included (tail : string) :
  JS.includes ("Gemini CLI exited with code " ++ tail) "exited with code" = true.
Proof. reflexivity. Qed.

(** C2, as the code has it.  The runner that retries is the Gemini
    runner: when a run that supplied a session identifier ends in a
    process-exit error, [run] spawns exactly one more process, with the
    arguments of the first less [--resume] and the identifier, and its
    outcome is the outcome of the run.  The Claude Code runner spawns one
    process in every run, and the exit error of that process is the
    outcome. *)
Theorem resume_failure_retry
  (world : World) (this : Runner) (prompt : string) (options : option RunOptions)
  (sid : string) (data rest : list event) (code : option Z) :
  given (opt opt_sessionId options) = Some sid ->
  forallb is_data data = true ->
  nonzero code = true ->
  (world 0%nat (Gemini.run_args this prompt options) = (data ++ Close code :: rest)%list ->
   Gemini.run world this prompt options
   = mkRun [Gemini.run_args this prompt options;
            Gemini.run_args this prompt (Gemini.without_session options)]
           (Gemini.attempt this
              (world 1%nat (Gemini.run_args this prompt (Gemini.without_session options)))))
  /\ Gemini.buildBaseArgs this options
     = (Gemini.buildBaseArgs this (Gemini.without_session options) ++ ["--resume"; sid])%list
  /\ (world 0%nat (Claude.run_args this prompt options) = (data ++ Close code :: rest)%list ->
      Claude.run world this prompt options
      = mkRun [Claude.run_args this prompt options]
              (Some (inl ("Claude Code CLI exited with code " ++ JS.show_code code ++ ": "
                          ++ stderr_of data))))
  /\ (forall w, spawned (Claude.run w this prompt options)
                = [Claude.run_args this prompt options]).
Proof.
  intros Hsid Hdata Hcode. split; [|split; [|split]].
  - intros Hworld. unfold Gemini.run, Gemini.attempt at 1.
    rewrite Hworld, (gemini_execute_exit this data rest code Hdata Hcode), Hsid.
    rewrite exit_message_included. reflexivity.
  - unfold Gemini.buildBaseArgs, push. rewrite Hsid.
    destruct options as [o|]; [|discriminate Hsid]. simpl.
    destruct (nullish (opt_skipPermissions o) (skipPermissions this));
      destruct (given (model this)); reflexivity.
  - intros Hworld. unfold Claude.run.
    rewrite Hworld, (claude_execute_close this data rest code Hdata), Hcode. reflexivity.
  - intros w. reflexivity.
Qed.


End WithPlatform.

Lemma resume_failure_retry_witness :
  Gemini.run (H := node) (stale_session gemini_answer) (new_gemini None) "hi" resume_stale
  = mkRun [["--resume"; "stale"; "--prompt"; "hi"; "--output-format"; "json"];
           ["--prompt"; "hi"; "--output-format"; "json"]]
          (Some (inr (mkRunResult "ok" "fresh"))).
Proof.
  refine (proj1 (resume_failure_retry (H := node) (stale_session gemini_answer)
                   (new_gemini None) "hi" resume_stale "stale"
                   [Stderr "No conversation found with session ID: stale"] []
                   (Some 1%Z) _ _ _) _);
    reflexivity.
Defined.

(** C2 fails as stated on the Claude Code runner: the run that resumes a
    stale session spawns one process and rejects with its exit error,
    though a process spawned without the session would have answered. *)
Lemma claude_run_does_not_retry :
  Claude.run (H := node) (stale_session claude_answer) default_runner "hi" resume_stale
  = mkRun [["-p"; "--output-format"; "json"; "--resume"; "stale";
            "--append-system-prompt"; buildSystemPrompt None; "hi"]]
          (Some (inl "Claude Code CLI exited with code 1: No conversation found with session ID: stale"))
  /\ Claude.run (H := node) (stale_session claude_answer) default_runner "hi" None
     = mkRun [["-p"; "--output-format"; "json";
               "--append-system-prompt"; buildSystemPrompt None; "hi"]]
             (Some (inl "Claude Code CLI exited with code 1: No conversation found with session ID: stale"))
  /\ Claude.parseResponse (H := node) claude_answer
     = inr (JObj [("type", JStr "result"); ("subtype", JStr "success");
                  ("is_error", JBool false); ("result", JStr "ok");
                  ("session_id", JStr "fresh")]).
Proof. vm_compute. repeat split; reflexivity. Qed.



End RunProps.

(** ** Streaming runs *)

Module StreamProps.

Lemma terminals_call_back (s : stream) (c : call) :
  terminals (call_back s c) = (terminals s ++ List.filter terminal [c])%list.
Proof. unfold terminals, call_back. simpl calls. apply List.filter_app. Qed.

Lemma effect_reject (s s' : stream) (m : string) :
  promise s' = promise s -> terminals s' = terminals s ->
  effect s (reject (call_back s' (onError m)) m).
Proof.
  intros Hp Ht. apply (fired _ _ (inl m)).
  - simpl. rewrite Hp. reflexivity.
  - change (terminals (call_back s' (onError m)) = (terminals s ++ [onError m])%list).
    rewrite terminals_call_back, Ht. reflexivity.
Qed.

Lemma effect_resolve (s s' : stream) (r : RunResult) :
  promise s' = promise s -> terminals s' = terminals s ->
  effect s (resolve (call_back s' (onComplete r)) r).
Proof.
  intros Hp Ht. apply (fired _ _ (inr r)).
  - simpl. rewrite Hp. reflexivity.
  - change (terminals (call_back s' (onComplete r)) = (terminals s ++ [onComplete r])%list).
    rewrite terminals_call_back, Ht. reflexivity.
Qed.

Lemma effect_trans_silent (s s' s'' : stream) :
  promise s' = promise s -> terminals s' = terminals s -> effect s' s'' -> effect s s''.
Proof.
  intros Hp Ht [Hp' Ht' | o Hp' Ht'].
  - apply silent; congruence.
  - apply (fired _ _ o); congruence.
Qed.

Lemma silent_trans (s s' s'' : stream) :
  promise s' = promise s /\ terminals s' = terminals s ->
  promise s'' = promise s' /\ terminals s'' = terminals s' ->
  promise s'' = promise s /\ terminals s'' = terminals s.
Proof. intros [Hp Ht] [Hp' Ht']. split; congruence. Qed.

Section WithPlatform.
Context `{Platform}.

(** *** The handlers of the Codex runner *)

Lemma codex_interpret_silent (s : stream) (json : json) :
  promise (fst (Codex.interpret s json)) = promise s
  /\ calls (fst (Codex.interpret s json)) = calls s.
Proof.
  unfold Codex.interpret.
  destruct (Codex.extractSessionId json); destruct (Codex.extractText json) as [[t b]|];
    simpl; auto.
Qed.

Lemma codex_on_line_silent (s : stream) (line : string) :
  promise (Codex.on_line s line) = promise s
  /\ terminals (Codex.on_line s line) = terminals s.
Proof.
  unfold Codex.on_line.
  destruct (negb (JS.truthy (JS.trim line))); [auto|].
  destruct (JSON_parse line) as [json|]; [|auto].
  destruct (is_null json); [auto|].
  pose proof (codex_interpret_silent (log_decoded s json) json) as [Hp Hc].
  destruct (Codex.interpret (log_decoded s json) json) as [s' [text|]]; simpl in *.
  - split; [exact Hp|]. unfold terminals. simpl. rewrite Hc, List.filter_app. simpl.
    apply app_nil_r.
  - split; [exact Hp|]. unfold terminals. rewrite Hc. reflexivity.
Qed.

Lemma codex_on_lines_silent (lines : list string) (s : stream) :
  promise (fold_left Codex.on_line lines s) = promise s
  /\ terminals (fold_left Codex.on_line lines s) = terminals s.
Proof.
  revert s. induction lines as [|line lines IH]; intros s; cbn [fold_left]; [auto|].
  destruct (IH (Codex.on_line s line)) as [-> ->]. apply codex_on_line_silent.
Qed.

Lemma codex_on_data_silent (s : stream) (data : string) :
  promise (Codex.on_data s data) = promise s
  /\ terminals (Codex.on_data s data) = terminals s.
Proof.
  unfold Codex.on_data, take_lines.
  destruct (JS.pop (JS.split (buffer s ++ data))) as [lines last].
  destruct (codex_on_lines_silent lines (set_buffer s (nullish (given last) ""))) as [-> ->].
  auto.
Qed.

Lemma codex_flush_silent (s : stream) :
  promise (Codex.flush s) = promise s /\ terminals (Codex.flush s) = terminals s.
Proof.
  unfold Codex.flush.
  destruct (JS.truthy (JS.trim (buffer s))); [|auto].
  destruct (JSON_parse (buffer s)) as [json|]; [|auto].
  destruct (is_null json); [auto|].
  destruct (codex_interpret_silent (log_decoded s json) json) as [Hp Hc].
  split; [exact Hp|]. unfold terminals. rewrite Hc. reflexivity.
Qed.

Lemma codex_step_effect (this : Runner) (s : stream) (ev : event) :
  effect s (Codex.stream_step this s ev).
Proof.
  destruct ev as [data | data | | code | m]; simpl.
  - destruct (codex_on_data_silent s data). apply silent; assumption.
  - apply silent; reflexivity.
  - destruct (timer s); [|apply silent; reflexivity].
    unfold Codex.on_timeout. apply effect_reject; reflexivity.
  - unfold Codex.on_close.
    destruct (codex_flush_silent (clear_timer s)) as [Hp Ht].
    destruct (nonzero code); [apply effect_reject | apply effect_resolve]; assumption.
  - unfold Codex.on_error. apply effect_reject; reflexivity.
Qed.

(** *** The handlers of the Claude Code runner *)

Lemma claude_blocks_silent (streaming : bool) (content : list json) (s : stream) :
  promise (Claude.blocks streaming s content) = promise s
  /\ terminals (Claude.blocks streaming s content) = terminals s.
Proof.
  revert s. induction content as [|block content IH]; intros s; simpl; [auto|].
  destruct (is_null block); [auto|].
  destruct (field_is block "type" "text"); [|apply IH].
  destruct (str_field block "text") as [text|]; [|apply IH].
  destruct streaming.
  - refine (silent_trans _ _ _ _ (IH _)).
    split; [reflexivity|]. rewrite terminals_call_back. simpl. apply app_nil_r.
  - refine (silent_trans _ _ _ _ (IH _)). auto.
Qed.

Lemma claude_assistant_silent (streaming : bool) (s : stream) (json : json) :
  promise (Claude.assistant streaming s json) = promise s
  /\ terminals (Claude.assistant streaming s json) = terminals s.
Proof.
  unfold Claude.assistant.
  destruct (Claude.message_content json) as [[| | | |content|]|]; auto.
  apply claude_blocks_silent.
Qed.

Lemma claude_merge_silent (s : stream) (json : json) :
  promise (Claude.merge_result s json) = promise s
  /\ terminals (Claude.merge_result s json) = terminals s.
Proof. unfold Claude.merge_result. destruct (text_field json "result"); auto. Qed.

(** A line that makes the handler return has rejected the promise. *)
Lemma claude_on_line_effect (s : stream) (line : string) :
  effect s (fst (Claude.on_line s line))
  /\ (snd (Claude.on_line s line) = false ->
      promise (fst (Claude.on_line s line)) = promise s
      /\ terminals (fst (Claude.on_line s line)) = terminals s).
Proof.
  unfold Claude.on_line.
  destruct (negb (JS.truthy (JS.trim line))); [split; [apply silent|]; auto|].
  destruct (JSON_parse line) as [json|]; [|split; [apply silent|]; auto].
  destruct (is_null json); [split; [apply silent|]; auto|].
  destruct (Claude.is_assistant json).
  { destruct (claude_assistant_silent true (log_decoded s json) json) as [Hp Ht].
    split; [apply silent|]; auto. }
  destruct (field_is json "type" "result"); [|split; [apply silent|]; auto].
  destruct (Json.truthy (field json "is_error")).
  - split; [|discriminate]. simpl. apply effect_reject; reflexivity.
  - destruct (claude_merge_silent
                (set_sessionId (log_decoded s json) (required json "session_id")) json)
      as [Hp Ht].
    split; [apply silent|]; auto.
Qed.

Lemma claude_on_lines_effect (lines : list string) (s : stream) :
  effect s (Claude.on_lines s lines).
Proof.
  revert s. induction lines as [|line lines IH]; intros s; simpl.
  - apply silent; reflexivity.
  - destruct (claude_on_line_effect s line) as [He Hs].
    destruct (Claude.on_line s line) as [s' returned]. simpl in *.
    destruct returned; [exact He|].
    destruct (Hs eq_refl) as [Hp Ht].
    exact (effect_trans_silent s s' _ Hp Ht (IH s')).
Qed.

Lemma claude_flush_silent (s : stream) :
  promise (Claude.flush s) = promise s /\ terminals (Claude.flush s) = terminals s.
Proof.
  unfold Claude.flush.
  destruct (JS.truthy (JS.trim (buffer s))); [|auto].
  destruct (JSON_parse (buffer s)) as [json|]; [|auto].
  destruct (is_null json); [auto|].
  destruct (Claude.is_assistant json).
  { refine (silent_trans s _ _ _ (claude_assistant_silent _ _ _)). auto. }
  destruct (field_is json "type" "result"); [|auto].
  refine (silent_trans s _ _ _ (claude_merge_silent _ _)). auto.
Qed.

Lemma claude_step_effect (this : Runner) (s : stream) (ev : event) :
  effect s (Claude.stream_step this s ev).
Proof.
  destruct ev as [data | data | | code | m]; simpl.
  - unfold Claude.on_data, take_lines.
    destruct (JS.pop (JS.split (buffer s ++ data))) as [lines last].
    apply (effect_trans_silent s (set_buffer s (nullish (given last) ""))); try reflexivity.
    apply claude_on_lines_effect.
  - apply silent; reflexivity.
  - destruct (timer s); [|apply silent; reflexivity].
    unfold Claude.on_timeout. apply effect_reject; reflexivity.
  - unfold Claude.on_close.
    destruct (claude_flush_silent (clear_timer s)) as [Hp Ht].
    destruct (nonzero code); [apply effect_reject | apply effect_resolve]; assumption.
  - unfold Claude.on_error. apply effect_reject; reflexivity.
Qed.

Lemma step_effect (backend : AgentBackend) (this : Runner) (s : stream) (ev : event) :
  effect s (stream_step backend this s ev).
Proof. destruct backend; [apply claude_step_effect | apply codex_step_effect]. Qed.

Lemma executeStream_snoc (backend : AgentBackend) (this : Runner)
  (events : list event) (ev : event) :
  executeStream backend this (events ++ [ev])
  = stream_step backend this (executeStream backend this events) ev.
Proof.
  destruct backend; unfold executeStream, Claude.executeStream, Codex.executeStream;
    rewrite fold_left_app; reflexivity.
Qed.

(** While the promise is pending no terminal callback has fired. *)
Lemma pending_no_terminal (backend : AgentBackend) (this : Runner) (events : list event) :
  promise (executeStream backend this events) = None ->
  terminals (executeStream backend this events) = [].
Proof.
  induction events as [|ev events IH] using rev_ind.
  - destruct backend; reflexivity.
  - rewrite executeStream_snoc.
    destruct (step_effect backend this (executeStream backend this events) ev)
      as [Hp Ht | o Hp Ht]; intros Hnone.
    + rewrite Ht. apply IH. congruence.
    + rewrite Hp in Hnone.
      destruct (promise (executeStream backend this events)); discriminate.
Qed.

(** A settled promise keeps its outcome, whatever the process emits
    afterwards. *)
Lemma settled_stays (backend : AgentBackend) (this : Runner)
  (events after : list event) (o : string + RunResult) :
  promise (executeStream backend this events) = Some o ->
  promise (executeStream backend this (events ++ after)) = Some o.
Proof.
  intros Hsettled. induction after as [|ev after IH] using rev_ind.
  - rewrite app_nil_r. exact Hsettled.
  - rewrite app_assoc, executeStream_snoc.
    destruct (step_effect backend this (executeStream backend this (events ++ after)) ev)
      as [Hp Ht | o' Hp Ht]; rewrite Hp, IH; reflexivity.
Qed.

(** C3, as the code has it.  On both runners, no [onComplete] and no
    [onError] fires while the promise that [runStream] returns is
    pending; the event that settles it fires exactly one of the two,
    once, the one that goes with the outcome; and the promise keeps that
    outcome: of a timeout and an exit, only the first settles it. *)
Theorem one_callback_at_settlement
  (backend : AgentBackend) (this : Runner) (before : list event) (ev : event)
  (o : string + RunResult) :
  promise (executeStream backend this before) = None ->
  promise (executeStream backend this (before ++ [ev])) = Some o ->
  terminals (executeStream backend this before) = []
  /\ terminals (executeStream backend this (before ++ [ev])) = [call_of o]
  /\ (forall after,
        promise (executeStream backend this ((before ++ [ev]) ++ after)) = Some o).
Proof.
  intros Hpending Hsettled.
  pose proof (pending_no_terminal backend this before Hpending) as Hnone.
  split; [exact Hnone|]. split.
  - rewrite executeStream_snoc in *.
    destruct (step_effect backend this (executeStream backend this before) ev)
      as [Hp Ht | o' Hp Ht].
    + congruence.
    + rewrite Hpending in Hp. simpl in Hp. rewrite Ht, Hnone.
      assert (o' = o) as -> by congruence. reflexivity.
  - intros after. apply settled_stays. exact Hsettled.
Qed.

End WithPlatform.

End StreamProps.

(** ** The terminal result of the Claude Code stream *)

Module ClaudeStreamProps.
Import Transcripts StreamProps.

Lemma split_line (line rest : string) :
  has_LF line = false ->
  JS.split (line ++ JS.nl ++ rest) = line :: JS.split rest.
Proof.
  induction line as [|c line IH]; intros Hline; [reflexivity|].
  simpl in Hline. apply orb_false_elim in Hline as [Hc Hline].
  change (JS.split (String c (line ++ JS.nl ++ rest)) = String c line :: JS.split rest).
  cbn [JS.split]. rewrite Hc, (IH Hline). reflexivity.
Qed.

Lemma split_fragment (line : string) :
  has_LF line = false -> JS.split line = [line].
Proof.
  induction line as [|c line IH]; intros Hline; [reflexivity|].
  simpl in Hline. apply orb_false_elim in Hline as [Hc Hline].
  cbn [JS.split]. rewrite Hc, (IH Hline). reflexivity.
Qed.

Lemma truthy_trim (s : string) : JS.truthy (JS.trim s) = true -> JS.truthy s = true.
Proof. destruct s; [discriminate | reflexivity]. Qed.

Lemma field_is_other (json : json) (k a b : string) :
  field_is json k a = true -> String.eqb a b = false -> field_is json k b = false.
Proof.
  unfold field_is. destruct (field json k) as [[| | |s| |]|]; try discriminate.
  intros Ha Hab. apply String.eqb_eq in Ha. subst s. exact Hab.
Qed.

Lemma result_not_assistant `{Platform} (json : json) :
  field_is json "type" "result" = true -> Claude.is_assistant json = false.
Proof.
  intros Hr. unfold Claude.is_assistant.
  rewrite (field_is_other json "type" "result" "assistant" Hr eq_refl). reflexivity.
Qed.

Lemma result_not_null (json : json) :
  field_is json "type" "result" = true -> is_null json = false.
Proof. destruct json; try reflexivity. discriminate. Qed.

(** The rule of [mergeTexts], as the specification words it. *)
Lemma mergeTexts_spec_rule (t r : string) :
  (t = "" -> mergeTexts_spec t r = r)
  /\ (t <> "" -> JS.startsWith r t = false -> mergeTexts_spec t r = t ++ r).
Proof.
  unfold mergeTexts_spec. split.
  - intros ->. reflexivity.
  - intros Ht Hprefix. destruct t; [congruence|]. simpl. rewrite Hprefix. reflexivity.
Qed.

Section WithPlatform.
Context `{Platform}.

(** A complete line that carries a result event, in the ['data']
    handler. *)
Lemma on_data_result_line (s : stream) (line : string) (json : json) :
  buffer s = "" ->
  has_LF line = false ->
  JS.truthy (JS.trim line) = true ->
  JSON_parse line = Some json ->
  field_is json "type" "result" = true ->
  Claude.on_data s (line ++ JS.nl)
  = (if Json.truthy (field json "is_error")
     then reject (call_back
                    (set_sessionId (log_decoded (set_buffer s "") json)
                                   (required json "session_id"))
                    (onError (required json "result")))
                 (required json "result")
     else Claude.merge_result
            (set_sessionId (log_decoded (set_buffer s "") json) (required json "session_id"))
            json).
Proof.
  intros Hbuffer Hline Htrim Hparse Hresult.
  unfold Claude.on_data, take_lines. rewrite Hbuffer.
  change ("" ++ (line ++ JS.nl)) with (line ++ JS.nl ++ "").
  rewrite (split_line line "" Hline). simpl.
  unfold Claude.on_line. rewrite Htrim. simpl. rewrite Hparse.
  rewrite (result_not_null json Hresult), (result_not_assistant json Hresult), Hresult.
  destruct (Json.truthy (field json "is_error")); reflexivity.
Qed.

(** A result event left in the buffer, at ['close']: the flush merges its
    text and does not read [is_error]. *)
Lemma flush_result_fragment (s : stream) (json : json) :
  JS.truthy (JS.trim (buffer s)) = true ->
  JSON_parse (buffer s) = Some json ->
  field_is json "type" "result" = true ->
  Claude.flush s
  = Claude.merge_result (set_sessionId (log_decoded s json) (required json "session_id")) json.
Proof.
  intros Htrim Hparse Hresult. unfold Claude.flush.
  rewrite Htrim, Hparse.
  rewrite (result_not_null json Hresult), (result_not_assistant json Hresult), Hresult.
  reflexivity.
Qed.

(** A chunk with no line feed in it, when the buffer is empty, is kept
    whole in the buffer. *)
Lemma on_data_fragment (s : stream) (line : string) :
  buffer s = "" ->
  has_LF line = false ->
  JS.truthy line = true ->
  Claude.on_data s line = set_buffer s line.
Proof.
  intros Hbuffer Hline Htruthy.
  unfold Claude.on_data, take_lines. rewrite Hbuffer.
  change ("" ++ line) with line. rewrite (split_fragment line Hline). simpl.
  unfold given. rewrite Htruthy. reflexivity.
Qed.

(** C10.  A result event that reports an error ([is_error] set) and that
    is still in the buffer when the process closes with code 0, for want
    of a line feed after it: the flush merges its text into the
    accumulated text and the run resolves through [onComplete], where the
    same event in a complete line makes the ['data'] handler call
    [onError] with the message of the backend and reject. *)
Theorem flush_ignores_is_error
  (this : Runner) (before : list event) (json : json) (r : string) :
  promise (Claude.executeStream this before) = None ->
  JS.truthy (JS.trim (buffer (Claude.executeStream this before))) = true ->
  JSON_parse (buffer (Claude.executeStream this before)) = Some json ->
  field_is json "type" "result" = true ->
  Json.truthy (field json "is_error") = true ->
  text_field json "result" = Some r ->
  promise (Claude.executeStream this (before ++ [Close (Some 0%Z)]))
  = Some (inr (mkRunResult
                 (mergeTexts (fullText (Claude.executeStream this before)) r)
                 (required json "session_id")))
  /\ calls (Claude.executeStream this (before ++ [Close (Some 0%Z)]))
     = (calls (Claude.executeStream this before)
        ++ [onComplete (mkRunResult
                          (mergeTexts (fullText (Claude.executeStream this before)) r)
                          (required json "session_id"))])%list
  /\ (forall (s : stream) (line : string),
        buffer s = "" -> has_LF line = false -> JS.truthy (JS.trim line) = true ->
        JSON_parse line = Some json ->
        calls (Claude.on_data s (line ++ JS.nl))
        = (calls s ++ [onError (required json "result")])%list
        /\ promise (Claude.on_data s (line ++ JS.nl))
           = settle (promise s) (inl (required json "result"))).
Proof.
  intros Hpending Htrim Hparse Hresult Herror Htext.
  unfold Claude.executeStream in *. rewrite !fold_left_app. cbn [fold_left].
  set (s := fold_left (Claude.stream_step this) before stream_init) in *.
  split; [|split].
  - simpl. unfold Claude.on_close.
    rewrite (flush_result_fragment (clear_timer s) json Htrim Hparse Hresult).
    unfold Claude.merge_result. rewrite Htext. simpl. rewrite Hpending. reflexivity.
  - simpl. unfold Claude.on_close.
    rewrite (flush_result_fragment (clear_timer s) json Htrim Hparse Hresult).
    unfold Claude.merge_result. rewrite Htext. reflexivity.
  - intros s0 line Hbuffer Hline Hnonblank Hline_parse.
    rewrite (on_data_result_line s0 line json Hbuffer Hline Hnonblank Hline_parse Hresult).
    rewrite Herror. auto.
Qed.

End WithPlatform.

(** C6.  With [mergeTexts] as the specification gives it: a successful
    result event that carries the text [r] arrives when the accumulated
    text is [t], in a complete line or as the last fragment with no line
    feed after it, and the process then closes with code 0.  The run
    resolves with [r] when [t] is empty, and with [t] followed by [r]
    when [t] is not empty and [r] does not start with [t]. *)
Theorem result_text_merged
  (parse : string -> option json) (this : Runner) (before : list event)
  (line : string) (newline : bool) (json : json) (r : string) :
  promise (Claude.executeStream (H := mkPlatform parse mergeTexts_spec) this before) = None ->
  buffer (Claude.executeStream (H := mkPlatform parse mergeTexts_spec) this before) = "" ->
  has_LF line = false ->
  JS.truthy (JS.trim line) = true ->
  parse line = Some json ->
  field_is json "type" "result" = true ->
  Json.truthy (field json "is_error") = false ->
  str_field json "result" = Some r ->
  exists final : string,
    promise (Claude.executeStream (H := mkPlatform parse mergeTexts_spec) this
               (before ++ [Stdout (if newline then line ++ JS.nl else line);
                           Close (Some 0%Z)]))
    = Some (inr (mkRunResult final (required json "session_id")))
    /\ (fullText (Claude.executeStream (H := mkPlatform parse mergeTexts_spec) this before)
        = "" -> final = r)
    /\ (fullText (Claude.executeStream (H := mkPlatform parse mergeTexts_spec) this before)
        <> "" ->
        JS.startsWith r
          (fullText (Claude.executeStream (H := mkPlatform parse mergeTexts_spec) this before))
        = false ->
        final
        = fullText (Claude.executeStream (H := mkPlatform parse mergeTexts_spec) this before)
          ++ r).
Proof.
  intros Hpending Hbuffer Hline Htrim Hparse Hresult Herror Hr.
  unfold Claude.executeStream in *. rewrite !fold_left_app. cbn [fold_left].
  set (P := mkPlatform parse mergeTexts_spec) in *.
  set (s := fold_left (Claude.stream_step this) before stream_init) in *.
  cbn [Claude.stream_step].
  assert (Hclose :
    promise (Claude.on_close
               (Claude.on_data s (if newline then line ++ JS.nl else line)) (Some 0%Z))
    = Some (inr (mkRunResult
                   (match text_field json "result" with
                    | Some x => mergeTexts_spec (fullText s) x
                    | None => fullText s
                    end)
                   (required json "session_id")))).
  { destruct newline.
    - rewrite (on_data_result_line (H := P) s line json Hbuffer Hline Htrim Hparse Hresult).
      rewrite Herror. unfold Claude.merge_result, Claude.on_close, Claude.flush.
      destruct (text_field json "result"); simpl; rewrite Hpending; reflexivity.
    - rewrite (on_data_fragment (H := P) s line Hbuffer Hline (truthy_trim line Htrim)).
      unfold Claude.on_close.
      rewrite (flush_result_fragment (H := P) (clear_timer (set_buffer s line)) json
                 Htrim Hparse Hresult).
      unfold Claude.merge_result.
      destruct (text_field json "result"); simpl; rewrite Hpending; reflexivity. }
  rewrite Hclose. unfold text_field. rewrite Hr.
  destruct (JS.truthy r) eqn:Htruthy.
  - exists (mergeTexts_spec (fullText s) r). split; [reflexivity|].
    apply mergeTexts_spec_rule.
  - assert (r = "") as -> by (destruct r; [reflexivity | discriminate]).
    exists (fullText s). split; [reflexivity|].
    split; [auto|]. intros _ _. symmetry. apply append_empty_r.
Qed.

End ClaudeStreamProps.

Module StreamExamples.
Import Transcripts StreamProps ClaudeStreamProps.

Lemma one_callback_at_settlement_witness :
  terminals (executeStream (H := node) codex default_runner
               [Stdout (first_message ++ JS.nl); Close (Some 0%Z)])
  = [onComplete (mkRunResult "first" "")].
Proof.
  refine (proj1 (proj2 (one_callback_at_settlement (H := node) codex default_runner
                          [Stdout (first_message ++ JS.nl)] (Close (Some 0%Z))
                          (inr (mkRunResult "first" "")) _ _))).
  - vm_compute. reflexivity.
  - vm_compute. reflexivity.
Defined.

(** C3 fails as stated.  When the timer expires the handler calls
    [onError] and kills the process, whose ['close'] event then arrives
    with no exit code and makes the ['close'] handler call [onError] a
    second time.  When the backend reports an error in the stream, the
    ['data'] handler calls [onError], and the ['close'] handler of the
    process, which exits with code 0, then calls [onComplete].  The
    promise keeps its first outcome in both runs. *)
Lemma callbacks_fire_after_settlement :
  calls (Codex.executeStream (H := node) default_runner [Timeout; Close None])
  = [onError "Codex CLI timed out after 300000ms";
     onError "Codex CLI exited with code null"]
  /\ promise (Codex.executeStream (H := node) default_runner [Timeout; Close None])
     = Some (inl "Codex CLI timed out after 300000ms")
  /\ calls (Claude.executeStream (H := node) default_runner [Timeout; Close None])
     = [onError "Claude Code CLI timed out after 300000ms";
        onError "Claude Code CLI exited with code null"]
  /\ calls (Claude.executeStream (H := node) default_runner
              [Stdout (error_result ++ JS.nl); Close (Some 0%Z)])
     = [onError "boom"; onComplete (mkRunResult "" "s1")]
  /\ promise (Claude.executeStream (H := node) default_runner
                [Stdout (error_result ++ JS.nl); Close (Some 0%Z)])
     = Some (inl "boom").
Proof. vm_compute. repeat split; reflexivity. Qed.

Lemma flush_ignores_is_error_witness :
  promise (Claude.executeStream (H := node) default_runner
             [Stdout error_result; Close (Some 0%Z)])
  = Some (inr (mkRunResult "boom" "s1"))
  /\ calls (Claude.executeStream (H := node) default_runner
              [Stdout error_result; Close (Some 0%Z)])
     = [onComplete (mkRunResult "boom" "s1")]
  /\ calls (Claude.on_data (H := node) stream_init (error_result ++ JS.nl))
     = [onError "boom"].
Proof.
  destruct (flush_ignores_is_error (H := node) default_runner [Stdout error_result]
              (JObj [("type", JStr "result"); ("subtype", JStr "error");
                     ("is_error", JBool true); ("result", JStr "boom");
                     ("session_id", JStr "s1")])
              "boom")
    as (Hpromise & Hcalls & Hline); [vm_compute; reflexivity .. |].
  split; [exact Hpromise|]. split; [exact Hcalls|].
  destruct (Hline stream_init error_result) as [Hc _]; [vm_compute; reflexivity .. |].
  exact Hc.
Defined.

Lemma result_text_merged_witness :
  promise (Claude.executeStream (H := node) default_runner
             [Stdout (narration ++ JS.nl); Stdout (success_result ++ JS.nl);
              Close (Some 0%Z)])
  = Some (inr (mkRunResult "Let me check. Done." "s1"))
  /\ promise (Claude.executeStream (H := node) default_runner
                [Stdout (success_result ++ JS.nl); Close (Some 0%Z)])
     = Some (inr (mkRunResult "Done." "s1")).
Proof.
  split.
  - destruct (result_text_merged Json.parse default_runner [Stdout (narration ++ JS.nl)]
                success_result true
                (JObj [("type", JStr "result"); ("subtype", JStr "success");
                       ("is_error", JBool false); ("result", JStr "Done.");
                       ("session_id", JStr "s1")])
                "Done.")
      as (final & Hpromise & _ & Hmerge); [vm_compute; reflexivity .. |].
    rewrite (Hmerge ltac:(vm_compute; discriminate) ltac:(vm_compute; reflexivity))
      in Hpromise.
    exact Hpromise.
  - destruct (result_text_merged Json.parse default_runner [] success_result true
                (JObj [("type", JStr "result"); ("subtype", JStr "success");
                       ("is_error", JBool false); ("result", JStr "Done.");
                       ("session_id", JStr "s1")])
                "Done.")
      as (final & Hpromise & Hempty & _); [vm_compute; reflexivity .. |].
    rewrite (Hempty ltac:(vm_compute; reflexivity)) in Hpromise.
    exact Hpromise.
Defined.

End StreamExamples.

(** * More properties of the code *)

(** ** The process registry: stopping, closing, stopping all *)

Module RegistryProps.
Import ProcessManager.

Lemma kill_processes (proc : handle) (sig : signal) (s : t) :
  processes (snd (kill proc sig s)) = processes s.
Proof.
  unfold kill. destruct (heap s !! proc) as [c|]; [|reflexivity].
  destruct (exited c); reflexivity.
Qed.

Lemma kill_other (proc q : handle) (sig : signal) (s : t) :
  q <> proc -> heap (snd (kill proc sig s)) !! q = heap s !! q.
Proof.
  intros Hne. unfold kill. destruct (heap s !! proc) as [c|]; [|reflexivity].
  destruct (exited c); [reflexivity|]. simpl. apply lookup_insert_ne. congruence.
Qed.

Lemma kill_keeps_killed (proc q : handle) (sig : signal) (s : t) :
  is_killed s q = true -> is_killed (snd (kill proc sig s)) q = true.
Proof.
  intros Hq. unfold is_killed in *. unfold kill.
  destruct (heap s !! proc) as [c|] eqn:Hc; [|exact Hq].
  destruct (exited c); [exact Hq|]. simpl.
  destruct (decide (proc = q)) as [->|Hne].
  - rewrite lookup_insert_eq. reflexivity.
  - rewrite lookup_insert_ne by exact Hne. exact Hq.
Qed.

Lemma stop_stops (s : t) (channelId : string) :
  isRunning channelId (snd (stop channelId s)) = false.
Proof.
  unfold stop, isRunning.
  destruct (processes s !! channelId) as [p|] eqn:Hk; simpl; [|rewrite Hk; reflexivity].
  destruct (is_killed s p) eqn:Hp; simpl.
  - rewrite Hk, Hp. reflexivity.
  - rewrite lookup_delete_eq. reflexivity.
Qed.

(** X1.  [stop] is idempotent: after [stop channelId] the channel is not
    running, and a second [stop channelId] returns [false] and changes
    nothing, whether the first found a process to signal or not. *)
Theorem stop_twice (s : t) (channelId : string) :
  isRunning channelId (snd (stop channelId s)) = false
  /\ stop channelId (snd (stop channelId s)) = (false, snd (stop channelId s)).
Proof.
  destruct (processes s !! channelId) as [p|] eqn:Hk.
  - destruct (is_killed s p) eqn:Hp.
    + assert (E : stop channelId s = (false, s))
        by (unfold stop; rewrite Hk, Hp; reflexivity).
      rewrite E. simpl. split; [|exact E].
      unfold isRunning. rewrite Hk, Hp. reflexivity.
    + assert (E : stop channelId s
                  = (true, mk (heap (snd (kill p SIGTERM s)))
                              (delete channelId (processes (snd (kill p SIGTERM s))))
                              (listeners (snd (kill p SIGTERM s)))))
        by (unfold stop; rewrite Hk, Hp; reflexivity).
      rewrite E. simpl. split.
      * unfold isRunning. simpl. rewrite lookup_delete_eq. reflexivity.
      * unfold stop. simpl. rewrite lookup_delete_eq. reflexivity.
  - assert (E : stop channelId s = (false, s)) by (unfold stop; rewrite Hk; reflexivity).
    rewrite E. simpl. split; [|exact E].
    unfold isRunning. rewrite Hk. reflexivity.
Qed.

(** A channel that is not running stays so when any channel is stopped. *)
Lemma stop_keeps_stopped (s : t) (channelId k : string) :
  isRunning k s = false -> isRunning k (snd (stop channelId s)) = false.
Proof.
  unfold isRunning, stop.
  destruct (processes s !! channelId) as [p|] eqn:Hc; [|auto].
  destruct (is_killed s p) eqn:Hp; [auto|]. simpl.
  intros Hk. destruct (decide (channelId = k)) as [->|Hne].
  - rewrite lookup_delete_eq. reflexivity.
  - rewrite lookup_delete_ne by exact Hne. rewrite kill_processes.
    destruct (processes s !! k) as [q|]; [|reflexivity].
    apply negb_false_iff in Hk. apply negb_false_iff.
    apply kill_keeps_killed. exact Hk.
Qed.

Lemma stopAll_keeps_stopped (order : list string) (s : t) (k : string) :
  isRunning k s = false -> isRunning k (stopAll order s) = false.
Proof.
  revert s. induction order as [|c order IH]; intros s Hk; [exact Hk|].
  apply (IH (snd (stop c s))). apply stop_keeps_stopped. exact Hk.
Qed.

(** X2.  After [stopAll], no channel is running: the loop visits every
    channel of the table, in whatever order the table iterates. *)
Theorem stopAll_stops_all (order : list string) (s : t) :
  (forall k, is_Some (processes s !! k) -> In k order) ->
  forall k, isRunning k (stopAll order s) = false.
Proof.
  intros Hall k.
  destruct (processes s !! k) as [p|] eqn:Hk.
  - assert (Hin : In k order) by (apply Hall; rewrite Hk; eauto).
    clear Hall Hk. revert s. induction order as [|c order IH]; intros s; [destruct Hin|].
    destruct (decide (c = k)) as [->|Hne].
    + apply (stopAll_keeps_stopped order (snd (stop k s))). apply stop_stops.
    + destruct Hin as [->|Hin]; [congruence|]. apply (IH Hin).
  - apply stopAll_keeps_stopped. unfold isRunning. rewrite Hk. reflexivity.
Qed.

(** The steps of [emit_close proc] remove no entry that holds another
    process. *)
Lemma listeners_keep_other (proc q : handle) (k : string)
  (ls : list (handle * string)) (acc : t) :
  q <> proc ->
  processes acc !! k = Some q ->
  processes
    (fold_left
       (fun acc l => if Nat.eqb (fst l) proc then on_close (snd l) proc acc else acc)
       ls acc) !! k = Some q.
Proof.
  intros Hne. revert acc. induction ls as [|[p' k'] ls IH]; intros acc Hk; [exact Hk|].
  apply IH. simpl. destruct (Nat.eqb p' proc); [|exact Hk].
  unfold on_close. destruct (processes acc !! k') as [x|] eqn:Hx; [|exact Hk].
  destruct (Nat.eqb x proc) eqn:E; [|exact Hk]. simpl.
  apply Nat.eqb_eq in E. subst x.
  rewrite lookup_delete_ne; [exact Hk|]. intros ->. congruence.
Qed.

Lemma listeners_only_delete (proc : handle) (k : string)
  (ls : list (handle * string)) (acc : t) :
  processes acc !! k = Some proc \/ processes acc !! k = None ->
  let acc' :=
    fold_left
      (fun acc l => if Nat.eqb (fst l) proc then on_close (snd l) proc acc else acc)
      ls acc in
  processes acc' !! k = Some proc \/ processes acc' !! k = None.
Proof.
  revert acc. induction ls as [|[p' k'] ls IH]; intros acc Hk; [exact Hk|].
  apply IH. simpl. destruct (Nat.eqb p' proc); [|exact Hk].
  unfold on_close. destruct (processes acc !! k') as [x|] eqn:Hx; [|exact Hk].
  destruct (Nat.eqb x proc) eqn:E; [|exact Hk]. simpl.
  destruct (decide (k' = k)) as [->|Hne].
  - right. apply lookup_delete_eq.
  - rewrite lookup_delete_ne by exact Hne. exact Hk.
Qed.

Lemma ended_processes (proc : handle) (s : t) :
  processes
    (match heap s !! proc with
     | Some c => mk (<[proc := mkProc (killed c) true (received c)]> (heap s))
                    (processes s) (listeners s)
     | None => s
     end) = processes s.
Proof. destruct (heap s !! proc); reflexivity. Qed.

(** X3.  The entry of a registered process removes itself when the
    process closes: after [register channelId proc], the ['close'] event
    of [proc] leaves no entry under [channelId]. *)
Theorem close_removes_own_entry (s : t) (channelId : string) (proc : handle) :
  processes (emit_close proc (register channelId proc s)) !! channelId = None.
Proof.
  unfold emit_close.
  change (listeners (register channelId proc s))
    with (listeners (snd (stop channelId s)) ++ [(proc, channelId)])%list.
  rewrite fold_left_app. cbn [fold_left fst snd]. rewrite Nat.eqb_refl.
  match goal with |- processes (on_close _ _ ?acc) !! _ = _ => set (a := acc) end.
  assert (Ha : processes a !! channelId = Some proc \/ processes a !! channelId = None).
  { apply listeners_only_delete. left. rewrite ended_processes. simpl.
    apply lookup_insert_eq. }
  unfold on_close. destruct Ha as [Ha | Ha]; rewrite Ha.
  - rewrite Nat.eqb_refl. simpl. apply lookup_delete_eq.
  - exact Ha.
Qed.

(** X4.  The ['close'] event of a process removes no entry that holds
    another process: the exit of a superseded process, which arrives after
    its channel was given to a newer one, leaves the newer one
    registered. *)
Theorem close_keeps_other_process (s : t) (channelId : string) (old new : handle) :
  processes s !! channelId = Some new ->
  old <> new ->
  processes (emit_close old s) !! channelId = Some new.
Proof.
  intros Hk Hne. unfold emit_close.
  apply listeners_keep_other; [congruence|].
  rewrite ended_processes. exact Hk.
Qed.

(** X5.  [register channelId proc] touches one channel and at most one
    process: the entries of the other channels stay, and no process but
    the one that was registered under [channelId] is signalled or
    otherwise changed. *)
Theorem register_frame (s : t) (channelId k : string) (proc q : handle) :
  (k <> channelId ->
   processes (register channelId proc s) !! k = processes s !! k)
  /\ (processes s !! channelId <> Some q ->
      heap (register channelId proc s) !! q = heap s !! q).
Proof.
  split.
  - intros Hne. unfold register. simpl.
    rewrite lookup_insert_ne by congruence.
    unfold stop. destruct (processes s !! channelId) as [p|]; [|reflexivity].
    destruct (is_killed s p); [reflexivity|]. simpl.
    rewrite lookup_delete_ne by congruence. rewrite kill_processes. reflexivity.
  - intros Hq. unfold register. simpl.
    unfold stop. destruct (processes s !! channelId) as [p|]; [|reflexivity].
    destruct (is_killed s p); [reflexivity|]. simpl.
    apply kill_other. congruence.
Qed.

Lemma stopAll_stops_all_witness :
  isRunning "C42" (stopAll ["C42"; "C43"] (register "C43" 2%nat registered)) = false
  /\ isRunning "C43" (stopAll ["C42"; "C43"] (register "C43" 2%nat registered)) = false.
Proof.
  assert (Hall : forall k, is_Some (processes (register "C43" 2%nat registered) !! k) ->
                           In k ["C42"; "C43"]).
  { intros k [p Hp].
    destruct (decide (k = "C43")) as [->|H43]; [right; left; reflexivity|].
    destruct (decide (k = "C42")) as [->|H42]; [left; reflexivity|].
    exfalso.
    rewrite (ProcessManagerProps.register_other registered "C43" k 2%nat H43) in Hp.
    unfold registered in Hp.
    rewrite (ProcessManagerProps.register_other two_processes "C42" k 1%nat H42) in Hp.
    unfold two_processes in Hp. simpl in Hp.
    rewrite lookup_empty in Hp. discriminate. }
  split; apply (stopAll_stops_all _ _ Hall).
Defined.

Lemma close_keeps_other_process_witness :
  processes (emit_close 1%nat (register "C42" 2%nat registered)) !! "C42" = Some 2%nat.
Proof.
  apply (close_keeps_other_process (register "C42" 2%nat registered) "C42" 1%nat 2%nat).
  - vm_compute. reflexivity.
  - discriminate.
Defined.

(** A second channel is given a process: the first channel keeps its
    entry, and its process is not touched. *)
Lemma register_frame_witness :
  processes (register "C43" 2%nat registered) !! "C42" = processes registered !! "C42"
  /\ heap (register "C43" 2%nat registered) !! 1%nat = heap registered !! 1%nat.
Proof.
  destruct (register_frame registered "C43" "C42" 2%nat 1%nat) as [Hk Hq].
  split; [apply Hk; discriminate | apply Hq].
  unfold registered.
  rewrite (ProcessManagerProps.register_other two_processes "C42" "C43" 1%nat)
    by discriminate.
  unfold two_processes. simpl. rewrite lookup_empty. discriminate.
Defined.

End RegistryProps.

(** ** The Codex runner: chunks, exit codes, the timer *)

Module CodexRunProps.

Lemma split_not_nil (s : string) : JS.split s <> [].
Proof.
  induction s as [|c s IH]; simpl; [discriminate|].
  destruct (Ascii.eqb c JS.LF); [discriminate|].
  destruct (JS.split s); [congruence | discriminate].
Qed.


Lemma last_map_Some (l : list string) :
  l <> [] -> List.last (map Some l) None = Some (List.last l "").
Proof.
  induction l as [|x l IH]; [congruence|]. intros _.
  destruct l as [|y l]; [reflexivity|].
  change (List.last (map Some (y :: l)) None = Some (List.last (y :: l) "")).
  apply IH. discriminate.
Qed.


Lemma keep_fragment (f : string) : nullish (given (Some f)) "" = f.
Proof. destruct f; reflexivity. Qed.

(** [take_lines] in terms of [split]. *)
Lemma take_lines_split (s : stream) (data : string) :
  take_lines s data
  = (removelast (JS.split (buffer s ++ data)),
     set_buffer s (List.last (JS.split (buffer s ++ data)) "")).
Proof.
  unfold take_lines, JS.pop.
  rewrite (last_map_Some _ (split_not_nil (buffer s ++ data))), keep_fragment.
  reflexivity.
Qed.

Section WithPlatform.
Context `{Platform}.

Lemma on_line_set_buffer (s : stream) (x line : string) :
  Codex.on_line (set_buffer s x) line = set_buffer (Codex.on_line s line) x.
Proof.
  unfold Codex.on_line.
  destruct (negb (JS.truthy (JS.trim line))); [reflexivity|].
  destruct (JSON_parse line) as [json|]; [|reflexivity].
  destruct (is_null json); [reflexivity|].
  unfold Codex.interpret.
  destruct (Codex.extractSessionId json); destruct (Codex.extractText json) as [[t b]|];
    reflexivity.
Qed.

Lemma on_lines_set_buffer (lines : list string) (s : stream) (x : string) :
  fold_left Codex.on_line lines (set_buffer s x)
  = set_buffer (fold_left Codex.on_line lines s) x.
Proof.
  revert s. induction lines as [|line lines IH]; intros s; [reflexivity|].
  cbn [fold_left]. rewrite on_line_set_buffer. apply IH.
Qed.




Lemma extractText_complete (json : json) (text : string) (b : bool) :
  Codex.extractText json = Some (text, b) -> b = true.
Proof.
  unfold Codex.extractText. intros E.
  repeat match type of E with
         | context [match ?x with _ => _ end] =>
             lazymatch x with
             | context [match _ with _ => _ end] => fail
             | _ => destruct x; try discriminate E
             end
         end;
    congruence.
Qed.

(** A line in the stream and in [extractResult]: it yields the same
    text, or none, in both. *)
Lemma on_line_collect (s : stream) (line : string) :
  (Codex.collect [] line = [] /\ fullText (Codex.on_line s line) = fullText s)
  \/ (exists text, Codex.collect [] line = [text]
                   /\ fullText (Codex.on_line s line) = text).
Proof.
  unfold Codex.collect, Codex.on_line, Codex.interpret, push.
  destruct (negb (JS.truthy (JS.trim line))); [left; auto|].
  destruct (JSON_parse line) as [json|]; [|left; auto].
  destruct (is_null json); [left; auto|].
  destruct (Codex.extractText json) as [[text b]|] eqn:E.
  - rewrite (extractText_complete json text b E). right. exists text.
    destruct (Codex.extractSessionId json); auto.
  - left. destruct (Codex.extractSessionId json); auto.
Qed.

Lemma last_default (l : list string) (d d' : string) :
  l <> [] -> List.last l d = List.last l d'.
Proof.
  induction l as [|x l IH]; [congruence|]. intros _.
  destruct l as [|y l]; [reflexivity|]. apply IH. discriminate.
Qed.

Lemma stream_text (lines : list string) (s : stream) :
  fullText (fold_left Codex.on_line lines s)
  = List.last (flat_map (Codex.collect []) lines) (fullText s).
Proof.
  revert s. induction lines as [|line lines IH]; intros s; [reflexivity|].
  cbn [fold_left flat_map]. rewrite IH.
  destruct (on_line_collect s line) as [[-> ->] | (text & -> & ->)]; [reflexivity|].
  destruct (flat_map (Codex.collect []) lines) as [|x l] eqn:E; [reflexivity|].
  change ([text] ++ x :: l)%list with (text :: x :: l).
  change (List.last (text :: x :: l) (fullText s)) with (List.last (x :: l) (fullText s)).
  apply last_default. discriminate.
Qed.

Lemma on_lines_timer (lines : list string) (s : stream) :
  timer (fold_left Codex.on_line lines s) = timer s
  /\ kills (fold_left Codex.on_line lines s) = kills s.
Proof.
  revert s. induction lines as [|line lines IH]; intros s; [auto|].
  cbn [fold_left]. destruct (IH (Codex.on_line s line)) as [-> ->].
  unfold Codex.on_line.
  destruct (negb (JS.truthy (JS.trim line))); [auto|].
  destruct (JSON_parse line) as [json|]; [|auto].
  destruct (is_null json); [auto|].
  unfold Codex.interpret.
  destruct (Codex.extractSessionId json); destruct (Codex.extractText json) as [[t b]|];
    auto.
Qed.

Lemma data_silent (this : Runner) (data : list event) (s : stream) :
  forallb is_data data = true ->
  promise (fold_left (Codex.stream_step this) data s) = promise s
  /\ terminals (fold_left (Codex.stream_step this) data s) = terminals s
  /\ timer (fold_left (Codex.stream_step this) data s) = timer s
  /\ kills (fold_left (Codex.stream_step this) data s) = kills s.
Proof.
  revert s. induction data as [|ev data IH]; intros s Hdata; [auto|].
  simpl in Hdata. apply andb_prop in Hdata as [Hev Hdata].
  cbn [fold_left]. destruct (IH (Codex.stream_step this s ev) Hdata) as (-> & -> & -> & ->).
  destruct ev; try discriminate Hev; cbn [Codex.stream_step]; [|auto].
  destruct (StreamProps.codex_on_data_silent s data0) as [Hp Ht].
  split; [exact Hp|]. split; [exact Ht|].
  unfold Codex.on_data. rewrite take_lines_split.
  rewrite on_lines_set_buffer. simpl. apply on_lines_timer.
Qed.

End WithPlatform.

End CodexRunProps.

Module CodexPolicyProps.
Import CodexRunProps.

Section WithPlatform.
Context `{Platform}.

Lemma exec_data_timer (this : Runner) (data : list event) (e : exec) :
  forallb is_data data = true ->
  e_timer (fold_left (Codex.exec_step this) data e) = e_timer e
  /\ e_kills (fold_left (Codex.exec_step this) data e) = e_kills e.
Proof.
  revert e. induction data as [|ev data IH]; intros e Hdata; [auto|].
  simpl in Hdata. apply andb_prop in Hdata as [Hev Hdata].
  cbn [fold_left]. destruct (IH (Codex.exec_step this e ev) Hdata) as [-> ->].
  destruct ev; try discriminate Hev; auto.
Qed.

(** Once the timer has fired or was cleared, the process is not killed. *)
Lemma exec_timer_off (this : Runner) (events : list event) (e : exec) :
  e_timer e = false ->
  e_kills (fold_left (Codex.exec_step this) events e) = e_kills e.
Proof.
  revert e. induction events as [|ev events IH]; intros e Hoff; [reflexivity|].
  cbn [fold_left]. rewrite IH.
  - destruct ev; simpl; try reflexivity. rewrite Hoff. reflexivity.
  - destruct ev; simpl; try exact Hoff; try reflexivity. rewrite Hoff. exact Hoff.
Qed.

Lemma on_close_off (s : stream) (code : option Z) :
  timer (Codex.on_close s code) = false /\ kills (Codex.on_close s code) = kills s.
Proof.
  unfold Codex.on_close.
  assert (Hf : timer (Codex.flush (clear_timer s)) = false
               /\ kills (Codex.flush (clear_timer s)) = kills s).
  { unfold Codex.flush.
    destruct (JS.truthy (JS.trim (buffer (clear_timer s)))); [|auto].
    destruct (JSON_parse (buffer (clear_timer s))) as [json|]; [|auto].
    destruct (is_null json); [auto|]. unfold Codex.interpret.
    destruct (Codex.extractSessionId json);
      destruct (Codex.extractText json) as [[t b]|]; auto. }
  destruct (nonzero code); simpl; exact Hf.
Qed.

Lemma stream_timer_off (this : Runner) (events : list event) (s : stream) :
  timer s = false ->
  kills (fold_left (Codex.stream_step this) events s) = kills s.
Proof.
  revert s. induction events as [|ev events IH]; intros s Hoff; [reflexivity|].
  cbn [fold_left].
  assert (Hstep : timer (Codex.stream_step this s ev) = false
                  /\ kills (Codex.stream_step this s ev) = kills s).
  { destruct ev as [data | data | | code | m]; cbn [Codex.stream_step].
    - destruct (data_silent this [Stdout data] s eq_refl) as (_ & _ & Ht & Hk).
      simpl in Ht, Hk. rewrite Ht, Hk. auto.
    - auto.
    - rewrite Hoff. auto.
    - apply on_close_off.
    - auto. }
  destruct Hstep as [Ht Hk]. rewrite (IH _ Ht). exact Hk.
Qed.

(** What the stream resolves with when the whole output came in complete
    lines. *)
Lemma stream_of_lines (this : Runner) (output : string) (ls : list string) :
  JS.split output = (ls ++ [""])%list ->
  Codex.on_close (Codex.on_data stream_init output) (Some 0%Z)
  = let s := fold_left Codex.on_line ls stream_init in
    let r := mkRunResult (List.last (flat_map (Codex.collect []) ls) "") (s_sessionId s) in
    resolve (call_back (clear_timer s) (onComplete r)) r.
Proof.
  intros Hsplit. unfold Codex.on_data. rewrite take_lines_split.
  change (buffer stream_init ++ output) with output. rewrite Hsplit.
  rewrite removelast_last, last_last. change (set_buffer stream_init "") with stream_init.
  pose proof (stream_text ls stream_init) as Htext.
  destruct (DecoderProps.codex_on_lines_decoded ls stream_init) as [_ Hbuffer].
  unfold Codex.on_close, Codex.flush.
  change (buffer (clear_timer (fold_left Codex.on_line ls stream_init)))
    with (buffer (fold_left Codex.on_line ls stream_init)).
  rewrite Hbuffer. simpl.
  change (fullText (clear_timer (fold_left Codex.on_line ls stream_init)))
    with (fullText (fold_left Codex.on_line ls stream_init)).
  rewrite Htext. reflexivity.
Qed.


(** X8.  A non-zero exit code is an error in [run] and in [runStream] of
    the Codex runner, whatever the process wrote on its standard output:
    [run] rejects with the code and the captured standard error,
    [runStream] calls [onError], and no [onComplete], and rejects. *)
Theorem nonzero_exit_is_an_error
  (world : World) (this : Runner) (prompt : string) (options : option RunOptions)
  (data rest : list event) (code : option Z) :
  forallb is_data data = true ->
  nonzero code = true ->
  world 0%nat (Codex.buildArgs this prompt options) = (data ++ Close code :: rest)%list ->
  outcome (Codex.run world this prompt options)
  = Some (inl ("Codex CLI exited with code " ++ JS.show_code code ++ ": " ++ stderr_of data))
  /\ promise (Codex.executeStream this (data ++ [Close code]))
     = Some (inl ("Codex CLI exited with code " ++ JS.show_code code))
  /\ terminals (Codex.executeStream this (data ++ [Close code]))
     = [onError ("Codex CLI exited with code " ++ JS.show_code code)].
Proof.
  intros Hdata Hcode Hworld. split; [|split].
  - unfold Codex.run, Codex.execute. simpl. rewrite Hworld, fold_left_app. cbn [fold_left].
    destruct (CodexProps.exec_data this data exec_init Hdata) as (_ & Herr & Hp).
    rewrite (CodexProps.exec_settled this rest _
               (inl ("Codex CLI exited with code " ++ JS.show_code code ++ ": "
                     ++ stderr_of data))); [reflexivity|].
    simpl. rewrite Hcode, Herr, Hp. reflexivity.
  - unfold Codex.executeStream. rewrite fold_left_app. cbn [fold_left Codex.stream_step].
    destruct (data_silent this data stream_init Hdata) as (Hp & _ & _ & _).
    unfold Codex.on_close. rewrite Hcode. simpl.
    destruct (StreamProps.codex_flush_silent
                (clear_timer (fold_left (Codex.stream_step this) data stream_init)))
      as [-> _].
    simpl. rewrite Hp. reflexivity.
  - unfold Codex.executeStream. rewrite fold_left_app. cbn [fold_left Codex.stream_step].
    destruct (data_silent this data stream_init Hdata) as (_ & Ht & _ & _).
    unfold Codex.on_close. rewrite Hcode.
    change (terminals (call_back
                         (Codex.flush (clear_timer
                            (fold_left (Codex.stream_step this) data stream_init)))
                         (onError ("Codex CLI exited with code " ++ JS.show_code code)))
            = [onError ("Codex CLI exited with code " ++ JS.show_code code)]).
    rewrite StreamProps.terminals_call_back.
    destruct (StreamProps.codex_flush_silent
                (clear_timer (fold_left (Codex.stream_step this) data stream_init)))
      as [_ ->].
    change (terminals (clear_timer (fold_left (Codex.stream_step this) data stream_init)))
      with (terminals (fold_left (Codex.stream_step this) data stream_init)).
    rewrite Ht. reflexivity.
Qed.

(** X9.  The timer of the Codex runner: when it expires before the
    process closes, [run] and [runStream] reject with the time-out error
    and the process is killed, once, whatever it emits afterwards; when
    the process closes first, the timer is cleared and the process is
    never killed. *)
Theorem timer_policy (this : Runner) (data rest : list event) (code : option Z) :
  forallb is_data data = true ->
  (e_promise (Codex.execute this (data ++ Timeout :: rest))
   = Some (inl ("Codex CLI timed out after " ++ JS.show_Z (timeoutMs this) ++ "ms"))
   /\ e_kills (Codex.execute this (data ++ Timeout :: rest)) = 1%nat)
  /\ (promise (Codex.executeStream this (data ++ Timeout :: rest))
      = Some (inl ("Codex CLI timed out after " ++ JS.show_Z (timeoutMs this) ++ "ms"))
      /\ kills (Codex.executeStream this (data ++ Timeout :: rest)) = 1%nat)
  /\ e_kills (Codex.execute this (data ++ Close code :: rest)) = 0%nat
  /\ kills (Codex.executeStream this (data ++ Close code :: rest)) = 0%nat.
Proof.
  intros Hdata.
  destruct (CodexProps.exec_data this data exec_init Hdata) as (_ & _ & Hp).
  destruct (exec_data_timer this data exec_init Hdata) as [Ht Hk].
  destruct (data_silent this data stream_init Hdata) as (Hsp & _ & Hst & Hsk).
  unfold Codex.execute, Codex.executeStream. rewrite !fold_left_app. cbn [fold_left].
  split; [|split; [|split]].
  - split.
    + apply CodexProps.exec_settled. simpl. rewrite Ht. simpl. rewrite Hp. reflexivity.
    + rewrite exec_timer_off; simpl; rewrite Ht; simpl; [rewrite Hk|]; reflexivity.
  - split.
    + assert (Hs : promise (Codex.stream_step this
                              (fold_left (Codex.stream_step this) data stream_init) Timeout)
                   = Some (inl ("Codex CLI timed out after " ++ JS.show_Z (timeoutMs this)
                                ++ "ms"))).
      { simpl. rewrite Hst. simpl. rewrite Hsp. reflexivity. }
      revert Hs. generalize (Codex.stream_step this
                               (fold_left (Codex.stream_step this) data stream_init) Timeout).
      intros s Hs. revert s Hs.
      induction rest as [|ev rest IH]; intros s Hs; [exact Hs|].
      cbn [fold_left]. apply IH.
      destruct (StreamProps.codex_step_effect this s ev) as [-> _ | o -> _];
        rewrite Hs; reflexivity.
    + rewrite stream_timer_off; simpl; rewrite Hst; simpl; [rewrite Hsk|]; reflexivity.
  - rewrite exec_timer_off; simpl; [rewrite Hk|]; reflexivity.
  - rewrite stream_timer_off; cbn [Codex.stream_step].
    + destruct (on_close_off (fold_left (Codex.stream_step this) data stream_init) code)
        as [_ ->]. exact Hsk.
    + apply on_close_off.
Qed.

End WithPlatform.

End CodexPolicyProps.

Module CodexRunExamples.



Lemma nonzero_exit_is_an_error_witness :
  outcome (Codex.run (H := node) (stale_session "") default_runner "hi" resume_stale)
  = Some (inl ("Codex CLI exited with code " ++ JS.show_code (Some 1%Z) ++ ": "
               ++ stderr_of [Stderr "No conversation found with session ID: stale"]))
  /\ promise (Codex.executeStream (H := node) default_runner
                ([Stderr "No conversation found with session ID: stale"]
                 ++ [Close (Some 1%Z)]))
     = Some (inl ("Codex CLI exited with code " ++ JS.show_code (Some 1%Z)))
  /\ terminals (Codex.executeStream (H := node) default_runner
                  ([Stderr "No conversation found with session ID: stale"]
                   ++ [Close (Some 1%Z)]))
     = [onError ("Codex CLI exited with code " ++ JS.show_code (Some 1%Z))].
Proof.
  apply (CodexPolicyProps.nonzero_exit_is_an_error (H := node)
           (stale_session "") default_runner "hi" resume_stale
           [Stderr "No conversation found with session ID: stale"] [] (Some 1%Z));
    reflexivity.
Defined.

Lemma timer_policy_witness :
  (e_promise (Codex.execute (H := node) default_runner
                ([Stdout thread_started] ++ Timeout :: [Close None]))
   = Some (inl ("Codex CLI timed out after " ++ JS.show_Z (timeoutMs default_runner) ++ "ms"))
   /\ e_kills (Codex.execute (H := node) default_runner
                 ([Stdout thread_started] ++ Timeout :: [Close None])) = 1%nat)
  /\ (promise (Codex.executeStream (H := node) default_runner
                 ([Stdout thread_started] ++ Timeout :: [Close None]))
      = Some (inl ("Codex CLI timed out after " ++ JS.show_Z (timeoutMs default_runner)
                   ++ "ms"))
      /\ kills (Codex.executeStream (H := node) default_runner
                  ([Stdout thread_started] ++ Timeout :: [Close None])) = 1%nat)
  /\ e_kills (Codex.execute (H := node) default_runner
                ([Stdout thread_started] ++ Close (Some 0%Z) :: [Close None])) = 0%nat
  /\ kills (Codex.executeStream (H := node) default_runner
              ([Stdout thread_started] ++ Close (Some 0%Z) :: [Close None])) = 0%nat.
Proof.
  apply (CodexPolicyProps.timer_policy (H := node) default_runner
           [Stdout thread_started] [Close None] (Some 0%Z)).
  reflexivity.
Defined.

End CodexRunExamples.

(** ** The Gemini runner *)

Module GeminiProps.





Section WithPlatform.
Context `{Platform}.





(** The ['data'] handler never touches the timer, and never kills. *)
Lemma on_line_frame (s : stream) (line : string) :
  timer (fst (Gemini.on_line s line)) = timer s
  /\ kills (fst (Gemini.on_line s line)) = kills s
  /\ (forall o, promise s = Some o -> promise (fst (Gemini.on_line s line)) = Some o).
Proof.
  unfold Gemini.on_line.
  destruct (JS.truthy (JS.trim line)); simpl; [|auto].
  destruct (JSON_parse line) as [json|]; [|auto].
  destruct (is_null json); [auto|].
  unfold Gemini.on_init.
  destruct (field_is json "type" "init"); [destruct (text_field json "session_id")|];
    destruct (Gemini.delta json);
    (destruct (field_is json "type" "result");
     [destruct (text_field json "session_id"); destruct (field_is json "status" "error")|]);
    simpl; (split; [reflexivity | split; [reflexivity|]]);
    intros o Ho; try exact Ho; rewrite Ho; reflexivity.
Qed.

Lemma on_lines_frame (lines : list string) (s : stream) :
  timer (Gemini.on_lines s lines) = timer s
  /\ kills (Gemini.on_lines s lines) = kills s
  /\ (forall o, promise s = Some o -> promise (Gemini.on_lines s lines) = Some o).
Proof.
  revert s. induction lines as [|line lines IH]; intros s; [auto|].
  cbn [Gemini.on_lines]. destruct (on_line_frame s line) as (Ht & Hk & Hp).
  destruct (Gemini.on_line s line) as [s' returned]. simpl in Ht, Hk, Hp.
  destruct returned; [auto|].
  destruct (IH s') as (Ht' & Hk' & Hp'). rewrite Ht', Hk', Ht, Hk. auto.
Qed.

Lemma on_data_frame (s : stream) (data : string) :
  timer (Gemini.on_data s data) = timer s
  /\ kills (Gemini.on_data s data) = kills s
  /\ (forall o, promise s = Some o -> promise (Gemini.on_data s data) = Some o).
Proof.
  unfold Gemini.on_data. rewrite CodexRunProps.take_lines_split.
  apply (on_lines_frame _ (set_buffer s _)).
Qed.

Lemma flush_frame (s : stream) :
  timer (Gemini.flush s) = timer s
  /\ kills (Gemini.flush s) = kills s
  /\ promise (Gemini.flush s) = promise s.
Proof.
  unfold Gemini.flush.
  destruct (JS.truthy (JS.trim (buffer s))); [|auto].
  destruct (JSON_parse (buffer s)) as [json|]; [|auto].
  destruct (is_null json); [auto|].
  unfold Gemini.on_init.
  destruct (field_is json "type" "init"); [destruct (text_field json "session_id")|];
    destruct (Gemini.delta json);
    (destruct (field_is json "type" "result"); [destruct (text_field json "session_id")|]);
    auto.
Qed.

Lemma on_close_frame (s : stream) (code : option Z) :
  timer (Gemini.on_close s code) = false
  /\ kills (Gemini.on_close s code) = kills s
  /\ (forall o, promise s = Some o -> promise (Gemini.on_close s code) = Some o).
Proof.
  unfold Gemini.on_close. destruct (flush_frame (clear_timer s)) as (Ht & Hk & Hp).
  destruct (nonzero code); simpl; rewrite Ht, Hk, Hp; simpl;
    (split; [reflexivity | split; [reflexivity|]]); intros o Ho; rewrite Ho; reflexivity.
Qed.

(** A promise that is settled stays as it is. *)
Lemma settled_step (this : Runner) (s : stream) (ev : event) (o : string + RunResult) :
  promise s = Some o -> promise (Gemini.stream_step this s ev) = Some o.
Proof.
  intros Ho. destruct ev as [data | data | | code | m]; cbn [Gemini.stream_step].
  - apply on_data_frame, Ho.
  - exact Ho.
  - destruct (timer s); [|exact Ho]. simpl. rewrite Ho. reflexivity.
  - apply on_close_frame, Ho.
  - simpl. rewrite Ho. reflexivity.
Qed.

Lemma settled_steps (this : Runner) (events : list event) (s : stream)
  (o : string + RunResult) :
  promise s = Some o -> promise (fold_left (Gemini.stream_step this) events s) = Some o.
Proof.
  revert s. induction events as [|ev events IH]; intros s Ho; [exact Ho|].
  cbn [fold_left]. apply IH, settled_step, Ho.
Qed.

Lemma data_frame (this : Runner) (data : list event) (s : stream) :
  forallb is_data data = true ->
  timer (fold_left (Gemini.stream_step this) data s) = timer s
  /\ kills (fold_left (Gemini.stream_step this) data s) = kills s.
Proof.
  revert s. induction data as [|ev data IH]; intros s Hdata; [auto|].
  simpl in Hdata. apply andb_prop in Hdata as [Hev Hdata].
  cbn [fold_left]. destruct (IH (Gemini.stream_step this s ev) Hdata) as [-> ->].
  destruct ev as [d | d | | code | m]; try discriminate Hev; cbn [Gemini.stream_step].
  - destruct (on_data_frame s d) as (Ht & Hk & _). auto.
  - auto.
Qed.

Lemma gemini_exec_data_timer (this : Runner) (data : list event) (e : exec) :
  forallb is_data data = true ->
  e_timer (fold_left (Gemini.exec_step this) data e) = e_timer e.
Proof.
  revert e. induction data as [|ev data IH]; intros e Hdata; [auto|].
  simpl in Hdata. apply andb_prop in Hdata as [Hev Hdata].
  cbn [fold_left]. rewrite (IH _ Hdata).
  destruct ev; try discriminate Hev; reflexivity.
Qed.

Lemma no_e_includes (s : string) :
  no_e s = true -> JS.includes s "exited with code" = false.
Proof.
  induction s as [|c s IH]; intros Hs; [reflexivity|].
  simpl in Hs. apply andb_prop in Hs as [Hc Hs].
  cbn [JS.includes String.prefix]. rewrite (IH Hs).
  destruct (ascii_dec "e" c) as [<- | _]; [discriminate Hc | reflexivity].
Qed.

Lemma no_e_app (a b : string) : no_e (a ++ b) = no_e a && no_e b.
Proof.
  induction a as [|c a IH]; [reflexivity|].
  simpl. rewrite IH, andb_assoc. reflexivity.
Qed.

Lemma no_e_digits (d : Decimal.uint) : no_e (NilEmpty.string_of_uint d) = true.
Proof. induction d; simpl; auto. Qed.

Lemma no_e_show_Z (n : Z) : no_e (JS.show_Z n) = true.
Proof.
  unfold JS.show_Z, NilZero.string_of_int, NilZero.string_of_uint.
  destruct (Z.to_int n) as [d | d]; destruct d; try reflexivity;
    try apply (no_e_digits (Decimal.D0 _)); simpl; apply no_e_digits.
Qed.

(** The message of a time-out is not one that [run] and [runStream] take
    for the failure of a resume. *)
Lemma timeout_message (n : Z) :
  JS.includes ("Gemini CLI timed out after " ++ JS.show_Z n ++ "ms") "exited with code"
  = false.
Proof.
  cbn [JS.includes String.prefix String.append ascii_dec ascii_rec ascii_rect
       Bool.bool_dec bool_rec bool_rect sumbool_rec sumbool_rect orb].
  apply no_e_includes. rewrite no_e_app, no_e_show_Z. reflexivity.
Qed.

(** X11.  A run of the Gemini runner whose process is still going when
    the timer expires fails with the time-out error and is not retried,
    session or no session: [run] and [runStream] spawn one process. *)
Theorem timeout_is_not_retried
  (world : World) (this : Runner) (prompt : string) (options : option RunOptions)
  (data rest : list event) :
  forallb is_data data = true ->
  (world 0%nat (Gemini.run_args this prompt options) = (data ++ Timeout :: rest)%list ->
   Gemini.run world this prompt options
   = mkRun [Gemini.run_args this prompt options]
           (Some (inl ("Gemini CLI timed out after " ++ JS.show_Z (timeoutMs this) ++ "ms"))))
  /\ (world 0%nat (Gemini.runStream_args this prompt options)
       = (data ++ Timeout :: rest)%list ->
      promise (Gemini.executeStream this data) = None ->
      Gemini.sr_spawned (Gemini.runStream world this prompt options)
      = [Gemini.runStream_args this prompt options]
      /\ Gemini.sr_outcome (Gemini.runStream world this prompt options)
         = Some (inl ("Gemini CLI timed out after " ++ JS.show_Z (timeoutMs this) ++ "ms"))).
Proof.
  intros Hdata. split.
  - intros Hworld. unfold Gemini.run, Gemini.attempt. rewrite Hworld.
    unfold Gemini.execute. rewrite fold_left_app. cbn [fold_left].
    destruct (RunProps.gemini_exec_data this data exec_init Hdata) as (_ & _ & Hp).
    rewrite (RunProps.gemini_exec_settled this rest _
               (inl ("Gemini CLI timed out after " ++ JS.show_Z (timeoutMs this) ++ "ms"))).
    + rewrite timeout_message. destruct (given (opt opt_sessionId options)); reflexivity.
    + simpl. rewrite (gemini_exec_data_timer this data exec_init Hdata). simpl.
      rewrite Hp. reflexivity.
  - intros Hworld Hpending. unfold Gemini.runStream. rewrite Hworld.
    assert (Hp : promise (Gemini.executeStream this (data ++ Timeout :: rest))
                 = Some (inl ("Gemini CLI timed out after " ++ JS.show_Z (timeoutMs this)
                              ++ "ms"))).
    { unfold Gemini.executeStream in *. rewrite fold_left_app. cbn [fold_left].
      apply settled_steps. simpl.
      destruct (data_frame this data stream_init Hdata) as [-> _]. simpl.
      rewrite Hpending. reflexivity. }
    rewrite Hp, timeout_message.
    destruct (given (opt opt_sessionId options)); split; reflexivity.
Qed.

(** X12.  The retry of [runStream] shares the callbacks of the caller
    with the first attempt: when the process that was asked to resume a
    session exits with a code other than 0, having written nothing on
    its standard output, [onError] is called with that failure, then a
    second process is spawned, without the session, and the calls of the
    run are that [onError] followed by the calls of the second process,
    whose outcome is the outcome of the run. *)
Theorem stream_retry_reports_first_failure
  (world : World) (this : Runner) (prompt : string) (options : option RunOptions)
  (sid : string) (errs : list event) (code : option Z) :
  given (opt opt_sessionId options) = Some sid ->
  forallb is_stderr errs = true ->
  nonzero code = true ->
  world 0%nat (Gemini.runStream_args this prompt options) = (errs ++ [Close code])%list ->
  Gemini.runStream world this prompt options
  = Gemini.mkStreamRun
      [Gemini.runStream_args this prompt options;
       Gemini.runStream_args this prompt (Gemini.without_session options)]
      (onError ("Gemini CLI exited with code " ++ JS.show_code code)
       :: calls (Gemini.executeStream this
                   (world 1%nat
                      (Gemini.runStream_args this prompt (Gemini.without_session options)))))
      (promise (Gemini.executeStream this
                  (world 1%nat
                     (Gemini.runStream_args this prompt (Gemini.without_session options))))).
Proof.
  intros Hsid Herrs Hcode Hworld. unfold Gemini.runStream. rewrite Hworld.
  assert (Hfirst : Gemini.executeStream this (errs ++ [Close code])
                   = reject (call_back (clear_timer stream_init)
                               (onError ("Gemini CLI exited with code "
                                         ++ JS.show_code code)))
                       ("Gemini CLI exited with code " ++ JS.show_code code)).
  { unfold Gemini.executeStream. rewrite fold_left_app.
    assert (Hs : fold_left (Gemini.stream_step this) errs stream_init = stream_init).
    { generalize stream_init. clear Hworld.
      induction errs as [|ev errs IH]; intros s; [reflexivity|].
      simpl in Herrs. apply andb_prop in Herrs as [Hev Herrs].
      destruct ev; try discriminate Hev. cbn [fold_left Gemini.stream_step].
      apply (IH Herrs). }
    rewrite Hs. cbn [fold_left Gemini.stream_step]. unfold Gemini.on_close.
    rewrite Hcode. reflexivity. }
  rewrite Hfirst. unfold reject, call_back, clear_timer, stream_init.
  cbn [promise calls settle app]. rewrite Hsid.
  rewrite RunProps.exit_message_included. reflexivity.
Qed.


End WithPlatform.

End GeminiProps.

Module GeminiExamples.


Lemma timeout_is_not_retried_witness :
  Gemini.run (H := node) hangs (new_gemini None) "hi" resume_stale
  = mkRun [Gemini.run_args (new_gemini None) "hi" resume_stale]
          (Some (inl ("Gemini CLI timed out after "
                      ++ JS.show_Z (timeoutMs (new_gemini None)) ++ "ms")))
  /\ Gemini.sr_spawned (Gemini.runStream (H := node) hangs (new_gemini None) "hi" resume_stale)
     = [Gemini.runStream_args (new_gemini None) "hi" resume_stale].
Proof.
  destruct (GeminiProps.timeout_is_not_retried (H := node) hangs (new_gemini None) "hi"
              resume_stale
              [Stdout (q "{'type':'message','role':'assistant','content':'Hel'}" ++ JS.nl)]
              [] eq_refl)
    as [Hrun Hstream].
  split.
  - apply Hrun. reflexivity.
  - apply Hstream; reflexivity.
Defined.

Lemma stream_retry_reports_first_failure_witness :
  Gemini.runStream (H := node) (stale_session gemini_stream) (new_gemini None) "hi"
    resume_stale
  = Gemini.mkStreamRun
      [["--resume"; "stale"; "--prompt"; "hi"; "--output-format"; "stream-json"];
       ["--prompt"; "hi"; "--output-format"; "stream-json"]]
      [onError "Gemini CLI exited with code 1";
       onText "Hel" "Hel"; onText "lo" "Hello"; onComplete (mkRunResult "Hello" "g-1")]
      (Some (inr (mkRunResult "Hello" "g-1"))).
Proof.
  apply (GeminiProps.stream_retry_reports_first_failure (H := node)
           (stale_session gemini_stream) (new_gemini None) "hi" resume_stale "stale"
           [Stderr "No conversation found with session ID: stale"] (Some 1%Z));
    reflexivity.
Defined.

End GeminiExamples.

(** ** The timer of a streaming run *)

Module TimerProps.


Section WithPlatform.
Context `{Platform}.










End WithPlatform.

End TimerProps.

(** ** What a run returns *)

Module ResponseProps.

Section WithPlatform.
Context `{Platform}.



Lemma on_line_session (s : stream) (line : string) :
  s_sessionId (Codex.on_line s line) = Codex.exec_line (s_sessionId s) line.
Proof.
  unfold Codex.on_line, Codex.exec_line.
  destruct (negb (JS.truthy (JS.trim line))); [reflexivity|].
  destruct (JSON_parse line) as [json|]; [|reflexivity].
  destruct (is_null json); [reflexivity|]. unfold Codex.interpret.
  destruct (Codex.extractSessionId json);
    destruct (Codex.extractText json) as [[t b]|]; reflexivity.
Qed.

Lemma on_lines_session (lines : list string) (s : stream) :
  s_sessionId (fold_left Codex.on_line lines s)
  = fold_left Codex.exec_line lines (s_sessionId s).
Proof.
  revert s. induction lines as [|line lines IH]; intros s; [reflexivity|].
  cbn [fold_left]. rewrite IH, on_line_session. reflexivity.
Qed.

(** X17.  On an output of complete lines that comes in one chunk from a
    process that exits with code 0, [run] and [runStream] of the Codex
    runner return the same session identifier: the last one that a line
    of the output carries, and the empty string when no line carries
    one. *)
Theorem codex_session_of_lines (this : Runner) (output : string) (ls : list string) :
  JS.split output = (ls ++ [""])%list ->
  e_promise (Codex.execute this [Stdout output; Close (Some 0%Z)])
  = Some (inr (output, fold_left Codex.exec_line ls ""))
  /\ exists text,
       promise (Codex.executeStream this [Stdout output; Close (Some 0%Z)])
       = Some (inr (mkRunResult text (fold_left Codex.exec_line ls ""))).
Proof.
  intros Hsplit. split.
  - unfold Codex.execute. cbn [fold_left Codex.exec_step]. simpl.
    rewrite Hsplit, fold_left_app. reflexivity.
  - unfold Codex.executeStream. cbn [fold_left Codex.stream_step].
    rewrite (CodexPolicyProps.stream_of_lines this output ls Hsplit). cbn zeta.
    eexists. simpl.
    destruct (StreamProps.codex_on_lines_silent ls stream_init) as [-> _].
    rewrite on_lines_session. reflexivity.
Qed.

End WithPlatform.

End ResponseProps.

(** ** More on the argument lists *)

Module BuilderProps.

(** X18.  A request that states the permission mode gets, from every
    builder, the argument list that a request leaving it out gets from a
    runner configured with that mode: the default of the runner plays no
    part, and a request with [false] turns off the bypass of a runner
    configured with [true]. *)
Theorem explicit_permission_overrides_default
  (this : Runner) (prompt : string) (o : RunOptions) (b : bool) :
  opt_skipPermissions o = Some b ->
  Codex.buildArgs this prompt (Some o)
  = Codex.buildArgs (with_skipPermissions this b) prompt (Some (without_skipPermissions o))
  /\ Claude.run_args this prompt (Some o)
     = Claude.run_args (with_skipPermissions this b) prompt
         (Some (without_skipPermissions o))
  /\ Claude.runStream_args this prompt (Some o)
     = Claude.runStream_args (with_skipPermissions this b) prompt
         (Some (without_skipPermissions o))
  /\ Gemini.buildBaseArgs this (Some o)
     = Gemini.buildBaseArgs (with_skipPermissions this b)
         (Some (without_skipPermissions o)).
Proof.
  intros Hb.
  unfold Codex.buildArgs, Claude.run_args, Claude.runStream_args, Gemini.buildBaseArgs.
  simpl. rewrite Hb. simpl. auto.
Qed.

(** X19.  [run] and [runStream] of the Claude Code runner build their
    argument lists in two copies of the same code: the lists differ in
    the output format, and in [--verbose], and in nothing else. *)
Theorem claude_stream_args (this : Runner) (prompt : string) (options : option RunOptions) :
  Claude.run_args this prompt options
  = (["-p"; "--output-format"; "json"]
     ++ skipn 3 (Claude.run_args this prompt options))%list
  /\ Claude.runStream_args this prompt options
     = (["-p"; "--output-format"; "stream-json"; "--verbose"]
        ++ skipn 3 (Claude.run_args this prompt options))%list.
Proof.
  unfold Claude.run_args, Claude.runStream_args, push.
  destruct (nullish (opt opt_skipPermissions options) (skipPermissions this));
    destruct (given (opt opt_sessionId options));
    destruct (given (model this)); split; reflexivity.
Qed.

End BuilderProps.

(** ** The session store *)

Module StoreProps.

(** X20.  [handleSkill] and the sessions: the sessions of the other
    channels stay as they are; the session of the channel becomes the
    one that the run returns when the run resolves, and stays as it is,
    a stale session too, when the run fails or does not settle. *)
Theorem handleSkill_store (run : string -> option RunOptions -> Run)
  (skipPermissions : option bool) (sessions : gmap string string)
  (channelId skillName : string) (args : option string) :
  (forall other, other <> channelId ->
     fst (Discord.handleSkill run skipPermissions sessions channelId skillName args)
       !! other = sessions !! other)
  /\ fst (Discord.handleSkill run skipPermissions sessions channelId skillName args)
       !! channelId
     = match outcome (snd (Discord.handleSkill run skipPermissions sessions channelId
                             skillName args)) with
       | Some (inr res) => Some (sessionId res)
       | _ => sessions !! channelId
       end.
Proof.
  unfold Discord.handleSkill.
  destruct (outcome (run _ _)) as [[message | res]|] eqn:E; simpl; rewrite ?E.
  - auto.
  - split.
    + intros other Hother. apply lookup_insert_ne. congruence.
    + apply lookup_insert_eq.
  - auto.
Qed.

End StoreProps.

(** ** The skills of a workspace *)

Module SkillsProps.
Import Skills.

Lemma has_In (skillMap : list (string * Skill)) (key : string) :
  has skillMap key = true <-> In key (map fst skillMap).
Proof.
  induction skillMap as [|[k v] m IH]; simpl.
  - split; [discriminate | tauto].
  - rewrite orb_true_iff, IH, String.eqb_eq. tauto.
Qed.

Lemma nodup_snoc (l : list string) (x : string) :
  List.NoDup l -> ~ In x l -> List.NoDup (l ++ [x]).
Proof.
  induction l as [|y l IH]; intros Hl Hx; simpl.
  - constructor; [tauto | constructor].
  - apply List.NoDup_cons_iff in Hl as [Hy Hl].
    apply List.NoDup_cons_iff. split.
    + rewrite in_app_iff. simpl. intros [Hin | [<- | []]]; [tauto|].
      apply Hx. left. reflexivity.
    + apply IH; [exact Hl|]. intros Hin. apply Hx. right. exact Hin.
Qed.

Lemma keyed_names (skillMap : list (string * Skill)) :
  keyed skillMap -> map name (map snd skillMap) = map fst skillMap.
Proof.
  induction skillMap as [|[k v] m IH]; intros Hkeyed; [reflexivity|].
  simpl. rewrite IH.
  - rewrite (Hkeyed k v); [reflexivity | left; reflexivity].
  - intros k' v' Hin. apply Hkeyed. right. exact Hin.
Qed.

Lemma add_spec (skillMap : list (string * Skill)) (skill : Skill) :
  keyed skillMap -> List.NoDup (map fst skillMap) ->
  keyed (add skillMap skill) /\ List.NoDup (map fst (add skillMap skill)).
Proof.
  intros Hkeyed Hnodup. unfold add.
  destruct (has skillMap (name skill)) eqn:Ehas; [auto|]. split.
  - intros k v Hin. apply in_app_iff in Hin as [Hin | [Hin | []]].
    + apply Hkeyed, Hin.
    + inversion Hin. reflexivity.
  - rewrite map_app. simpl. apply nodup_snoc; [exact Hnodup|].
    intros Hin. apply has_In in Hin. congruence.
Qed.

(** What the loop of [loadSkills] leaves in the map: what was in it, and
    of the skills read those that are the first of their name. *)
Lemma fold_add_spec (loaded : list Skill) (skillMap : list (string * Skill)) :
  keyed skillMap -> List.NoDup (map fst skillMap) ->
  keyed (fold_left add loaded skillMap)
  /\ List.NoDup (map fst (fold_left add loaded skillMap))
  /\ forall skill,
       In skill (map snd (fold_left add loaded skillMap))
       <-> In skill (map snd skillMap)
           \/ (~ In (name skill) (map fst skillMap)
               /\ exists l1 l2, loaded = (l1 ++ skill :: l2)%list
                                /\ ~ In (name skill) (map name l1)).
Proof.
  revert skillMap. induction loaded as [|a loaded IH]; intros m Hkeyed Hnodup.
  - split; [exact Hkeyed|]. split; [exact Hnodup|]. intros skill. simpl. split; [tauto|].
    intros [Hin | (_ & l1 & l2 & Hnil & _)]; [exact Hin|].
    destruct l1; discriminate Hnil.
  - destruct (add_spec m a Hkeyed Hnodup) as [Hkeyed1 Hnodup1].
    destruct (IH (add m a) Hkeyed1 Hnodup1) as (Hk & Hn & Hin).
    cbn [fold_left]. split; [exact Hk|]. split; [exact Hn|].
    intros skill. rewrite Hin. clear Hin Hk Hn IH Hkeyed1 Hnodup1. unfold add.
    destruct (has m (name a)) eqn:Ehas.
    + apply has_In in Ehas. split.
      * intros [Hin | (Hfresh & l1 & l2 & -> & Hfirst)]; [left; exact Hin|].
        right. split; [exact Hfresh|]. exists (a :: l1), l2. split; [reflexivity|].
        simpl. intros [Heq | Hin]; [|tauto]. apply Hfresh. rewrite <- Heq. exact Ehas.
      * intros [Hin | (Hfresh & l1 & l2 & Heq & Hfirst)]; [left; exact Hin|].
        destruct l1 as [|b l1]; simpl in Heq; inversion Heq; subst.
        -- tauto.
        -- right. split; [exact Hfresh|]. exists l1, l2. split; [reflexivity|].
           intros Hin. apply Hfirst. right. exact Hin.
    + assert (Hnew : ~ In (name a) (map fst m)).
      { intros Hin. apply has_In in Hin. congruence. }
      rewrite !map_app. simpl. rewrite !in_app_iff. simpl. split.
      * intros [[Hin | [<- | []]] | (Hfresh & l1 & l2 & -> & Hfirst)].
        -- left. exact Hin.
        -- right. split; [exact Hnew|]. exists [], loaded. split; [reflexivity | tauto].
        -- right. split; [tauto|]. exists (a :: l1), l2. split; [reflexivity|].
           simpl. intros [Heq | Hin]; [|tauto]. apply Hfresh. right. left. exact Heq.
      * intros [Hin | (Hfresh & l1 & l2 & Heq & Hfirst)]; [tauto|].
        destruct l1 as [|b l1]; simpl in Heq; inversion Heq; subst.
        -- tauto.
        -- right. split.
           ++ intros [Hin | [Heq' | []]]; [tauto|]. apply Hfirst. left. exact Heq'.
           ++ exists l1, l2. split; [reflexivity|].
              intros Hin. apply Hfirst. right. exact Hin.
Qed.

(** X21.  [loadSkills] returns no two skills of the same name, and
    returns exactly the skills that are the first of their name among
    the skills read in [.claude/skills], then [.codex/skills], then
    [skills]: of two skills of one name the one read first wins. *)
Theorem loadSkills_first_wins (join : list string -> string)
  (loadSkillsFromDir : string -> list Skill) (workdir : string) :
  List.NoDup (map name (loadSkills join loadSkillsFromDir workdir))
  /\ forall skill,
       In skill (loadSkills join loadSkillsFromDir workdir)
       <-> exists l1 l2,
             found join loadSkillsFromDir workdir = (l1 ++ skill :: l2)%list
             /\ ~ In (name skill) (map name l1).
Proof.
  assert (Hfold : loadSkills join loadSkillsFromDir workdir
                  = map snd (fold_left add (found join loadSkillsFromDir workdir) [])).
  { unfold loadSkills, found. rewrite !fold_left_app. reflexivity. }
  rewrite Hfold.
  destruct (fold_add_spec (found join loadSkillsFromDir workdir) [])
    as (Hkeyed & Hnodup & Hin).
  - intros k v [].
  - constructor.
  - split.
    + rewrite keyed_names; assumption.
    + intros skill. rewrite Hin. simpl. split.
      * intros [[] | (_ & Hfirst)]. exact Hfirst.
      * intros Hfirst. right. split; [tauto | exact Hfirst].
Qed.

End SkillsProps.

Module MoreExamples.

(** The skill of [.claude/skills] wins over the one of the same name in
    [skills]. *)
Example loadSkills_two_dirs :
  Skills.loadSkills (String.concat "/") two_dirs "w"
  = [Skills.mkSkill "deploy" "ship it" "w/.claude/skills/deploy/SKILL.md";
     Skills.mkSkill "lint" "" "w/skills/lint.md"].
Proof. vm_compute. reflexivity. Qed.



Lemma codex_session_of_lines_witness :
  e_promise (Codex.execute (H := node) default_runner
               [Stdout two_completions; Close (Some 0%Z)])
  = Some (inr (two_completions, "t-1"))
  /\ exists text,
       promise (Codex.executeStream (H := node) default_runner
                  [Stdout two_completions; Close (Some 0%Z)])
       = Some (inr (mkRunResult text "t-1")).
Proof.
  apply (ResponseProps.codex_session_of_lines (H := node) default_runner two_completions
           [thread_started; first_message; second_message; turn_completed]).
  vm_compute. reflexivity.
Defined.

(** A runner configured to bypass the approvals, and a request that asks
    not to. *)
Lemma explicit_permission_overrides_default_witness :
  Codex.buildArgs (with_skipPermissions default_runner true) "hi"
    (Some (mkRunOptions (Some false) None None))
  = Codex.buildArgs (with_skipPermissions (with_skipPermissions default_runner true) false)
      "hi" (Some (without_skipPermissions (mkRunOptions (Some false) None None)))
  /\ firstn 3 (Codex.buildArgs (with_skipPermissions default_runner true) "hi"
                 (Some (mkRunOptions (Some false) None None)))
     = ["exec"; "--json"; "--full-auto"].
Proof.
  split.
  - apply (BuilderProps.explicit_permission_overrides_default
             (with_skipPermissions default_runner true) "hi"
             (mkRunOptions (Some false) None None) false).
    reflexivity.
  - reflexivity.
Defined.

End MoreExamples.

(** ** The text of an assistant message *)

Module ClaudeTextProps.

Section WithPlatform.
Context `{Platform}.

Lemma blocks_text (streaming : bool) (texts : list string) (s : stream) :
  fullText (Claude.blocks streaming s (map text_block texts)) = fullText s ++ text_of texts
  /\ calls (Claude.blocks streaming s (map text_block texts))
     = (calls s ++ if streaming then text_calls (fullText s) texts else [])%list
  /\ promise (Claude.blocks streaming s (map text_block texts)) = promise s
  /\ s_sessionId (Claude.blocks streaming s (map text_block texts)) = s_sessionId s.
Proof.
  revert s. induction texts as [|text texts IH]; intros s.
  - simpl. rewrite append_empty_r. destruct streaming; rewrite app_nil_r; auto.
  - cbn [map Claude.blocks text_block is_null].
    change (field_is (text_block text) "type" "text") with true.
    change (str_field (text_block text) "text") with (Some text).
    cbn iota.
    match goal with |- context [Claude.blocks streaming ?s' _] =>
      destruct (IH s') as (Hf & Hc & Hp & Hs) end.
    rewrite Hf, Hc, Hp, Hs.
    destruct streaming; simpl; rewrite append_assoc, <- ?app_assoc, ?app_nil_r; auto.
Qed.

(** X22.  A line of the stream of Claude Code that is an assistant
    message whose content is a list of text blocks: the ['data'] handler
    appends the texts to the accumulated text, in order, the empty ones
    too, and calls [onText] once for each block, with the text of the
    block and the running total; it settles nothing and goes on to the
    next line.  The flush at ['close'], when the line is what the buffer
    holds, appends the texts and calls nothing. *)
Theorem assistant_text_blocks (s : stream) (line : string) (json : json)
  (texts : list string) :
  JS.truthy (JS.trim line) = true ->
  JSON_parse line = Some json ->
  field_is json "type" "assistant" = true ->
  Claude.message_content json = Some (JArr (map text_block texts)) ->
  (exists s',
     Claude.on_line s line = (s', false)
     /\ fullText s' = fullText s ++ text_of texts
     /\ calls s' = (calls s ++ text_calls (fullText s) texts)%list
     /\ promise s' = promise s)
  /\ fullText (Claude.flush (set_buffer s line)) = fullText s ++ text_of texts
  /\ calls (Claude.flush (set_buffer s line)) = calls s.
Proof.
  intros Hline Hparse Htype Hcontent.
  assert (Hnull : is_null json = false) by (destruct json; try discriminate Htype; reflexivity).
  assert (Hassistant : Claude.is_assistant json = true).
  { unfold Claude.is_assistant. rewrite Htype, Hcontent. reflexivity. }
  split.
  - unfold Claude.on_line. rewrite Hline, Hparse, Hnull, Hassistant. simpl negb. cbn iota.
    eexists. split; [reflexivity|]. unfold Claude.assistant. rewrite Hcontent.
    destruct (blocks_text true texts (log_decoded s json)) as (Hf & Hc & Hp & _).
    rewrite Hf, Hc, Hp. auto.
  - unfold Claude.flush. change (buffer (set_buffer s line)) with line.
    rewrite Hline, Hparse, Hnull, Hassistant.
    unfold Claude.assistant. rewrite Hcontent.
    destruct (blocks_text false texts (log_decoded (set_buffer s line) json))
      as (Hf & Hc & _ & _).
    rewrite Hf, Hc. simpl. rewrite app_nil_r. auto.
Qed.

End WithPlatform.

Lemma assistant_text_blocks_witness :
  (exists s',
     Claude.on_line (H := node) stream_init narration = (s', false)
     /\ fullText s' = fullText stream_init ++ text_of ["Let me check. "]
     /\ calls s' = (calls stream_init ++ text_calls (fullText stream_init) ["Let me check. "])%list
     /\ promise s' = promise stream_init)
  /\ fullText (Claude.flush (H := node) (set_buffer stream_init narration))
     = fullText stream_init ++ text_of ["Let me check. "]
  /\ calls (Claude.flush (H := node) (set_buffer stream_init narration))
     = calls stream_init.
Proof.
  apply (assistant_text_blocks (H := node) stream_init narration
           (JObj [("type", JStr "assistant");
                  ("message", JObj [("content", JArr [text_block "Let me check. "])])])
           ["Let me check. "]);
    vm_compute; reflexivity.
Defined.

End ClaudeTextProps.
